(** * SpiceDB CockroachDB datastore: configuration builder and migration driver

    A shallow embedding of
      - internal/datastore/crdb/options.go            (module [crdb])
      - internal/datastore/crdb/migrations/driver.go  (module [migrations])
    together with a small executable model of the part of pgx / the SQL
    backend that the driver talks to (module [pgx]).

    Go values are modelled as follows.
      - [time.Duration] is an int64 count of nanoseconds: a [Z].
      - [uint16], [int], [int64] are [Z]; no arithmetic is performed on them
        by the code, so no wrap-around appears.
      - a pointer field that is either nil or points to a captured value
        ([*time.Duration], [*int]) is an [option].
      - a Go [error] is [option error]: [None] is nil.
      - a function returning [(T, error)] returns a pair, as in Go; both
        components are kept, since the code sometimes returns a value next
        to a non-nil error. *)

From Stdlib Require Import ZArith List String Bool Lia Permutation.
Import ListNotations.
Local Open Scope Z_scope.
Local Open Scope string_scope.

(** ** Errors *)

(** Operands handed to [fmt.Errorf] other than a wrapped cause. *)
Inductive arg : Type :=
| ArgDuration (d : Z)   (* a time.Duration printed with %s *)
| ArgInt (n : Z).       (* an integer printed with %d *)

(** The error values that occur.  [Errorf] is [fmt.Errorf] with a format
    that has no [%w] verb (the result wraps nothing); [Wrapf] is
    [fmt.Errorf] with a single [%w] operand, whose [Unwrap] is [cause]. *)
Inductive error : Type :=
| PgError (code : string) (message : string)   (* *pgconn.PgError *)
| ErrNoRows                                    (* pgx.ErrNoRows *)
| ErrTxClosed                                  (* pgx.ErrTxClosed *)
| ErrTxCommitRollback                          (* pgx.ErrTxCommitRollback *)
| External (message : string)                  (* any other library error *)
| Errorf (format : string) (args : list arg)
| Wrapf (format : string) (cause : error).

(** [errors.As(err, &pgErr)] with [pgErr : *pgconn.PgError]: the first
    [PgError] on the [Unwrap] chain, as (code, message). *)
Fixpoint errors_As_PgError (err : error) : option (string * string) :=
  match err with
  | PgError code message => Some (code, message)
  | Wrapf _ cause => errors_As_PgError cause
  | _ => None
  end.

(** ** options.go *)

Module crdb.

Definition Duration := Z.

Definition Nanosecond : Duration := 1.
Definition Second : Duration := 1000000000 * Nanosecond.
Definition Minute : Duration := 60 * Second.
Definition Hour : Duration := 60 * Minute.

Record crdbOptions : Type := mkOptions {
  connMaxIdleTime : option Duration;
  connMaxLifetime : option Duration;
  minOpenConns : option Z;
  maxOpenConns : option Z;

  watchBufferLength : Z;
  revisionQuantization : Duration;
  gcWindow : Duration
}.

Definition errQuantizationTooLarge : string :=
  "revision quantization (%s) must be less than GC window (%s)".

Definition defaultRevisionQuantization : Duration := 5 * Second.
Definition defaultWatchBufferLength : Z := 128.

(** [type CRDBOption func] over a pointer to [crdbOptions]: a mutation of the record the
    pointer designates, i.e. a function from its old to its new contents. *)
Definition CRDBOption : Type := crdbOptions -> crdbOptions.

(** The composite literal at the head of [generateConfig]; fields it does
    not mention hold Go's zero value (nil pointers). *)
Definition initialOptions : crdbOptions :=
  {| connMaxIdleTime := None;
     connMaxLifetime := None;
     minOpenConns := None;
     maxOpenConns := None;
     watchBufferLength := defaultWatchBufferLength;
     revisionQuantization := defaultRevisionQuantization;
     gcWindow := 24 * Hour |}.

(** The [for _, option := range options] loop. *)
Definition applyOptions (options : list CRDBOption) (start : crdbOptions)
  : crdbOptions :=
  fold_left (fun computed option => option computed) options start.

Definition generateConfig (options : list CRDBOption)
  : crdbOptions * option error :=
  let computed := applyOptions options initialOptions in
  if revisionQuantization computed >=? gcWindow computed then
    (computed,
     Some (Errorf errQuantizationTooLarge
             [ArgDuration (revisionQuantization computed);
              ArgDuration (gcWindow computed)]))
  else
    (computed, None).

Definition ConnMaxIdleTime (idle : Duration) : CRDBOption :=
  fun po =>
    {| connMaxIdleTime := Some idle;
       connMaxLifetime := connMaxLifetime po;
       minOpenConns := minOpenConns po;
       maxOpenConns := maxOpenConns po;
       watchBufferLength := watchBufferLength po;
       revisionQuantization := revisionQuantization po;
       gcWindow := gcWindow po |}.

Definition ConnMaxLifetime (lifetime : Duration) : CRDBOption :=
  fun po =>
    {| connMaxIdleTime := connMaxIdleTime po;
       connMaxLifetime := Some lifetime;
       minOpenConns := minOpenConns po;
       maxOpenConns := maxOpenConns po;
       watchBufferLength := watchBufferLength po;
       revisionQuantization := revisionQuantization po;
       gcWindow := gcWindow po |}.

Definition MinOpenConns (conns : Z) : CRDBOption :=
  fun po =>
    {| connMaxIdleTime := connMaxIdleTime po;
       connMaxLifetime := connMaxLifetime po;
       minOpenConns := Some conns;
       maxOpenConns := maxOpenConns po;
       watchBufferLength := watchBufferLength po;
       revisionQuantization := revisionQuantization po;
       gcWindow := gcWindow po |}.

Definition MaxOpenConns (conns : Z) : CRDBOption :=
  fun po =>
    {| connMaxIdleTime := connMaxIdleTime po;
       connMaxLifetime := connMaxLifetime po;
       minOpenConns := minOpenConns po;
       maxOpenConns := Some conns;
       watchBufferLength := watchBufferLength po;
       revisionQuantization := revisionQuantization po;
       gcWindow := gcWindow po |}.

Definition WatchBufferLength (watchBufferLength' : Z) : CRDBOption :=
  fun po =>
    {| connMaxIdleTime := connMaxIdleTime po;
       connMaxLifetime := connMaxLifetime po;
       minOpenConns := minOpenConns po;
       maxOpenConns := maxOpenConns po;
       watchBufferLength := watchBufferLength';
       revisionQuantization := revisionQuantization po;
       gcWindow := gcWindow po |}.

Definition RevisionQuantization (bucketSize : Duration) : CRDBOption :=
  fun po =>
    {| connMaxIdleTime := connMaxIdleTime po;
       connMaxLifetime := connMaxLifetime po;
       minOpenConns := minOpenConns po;
       maxOpenConns := maxOpenConns po;
       watchBufferLength := watchBufferLength po;
       revisionQuantization := bucketSize;
       gcWindow := gcWindow po |}.

Definition GCWindow (window : Duration) : CRDBOption :=
  fun po =>
    {| connMaxIdleTime := connMaxIdleTime po;
       connMaxLifetime := connMaxLifetime po;
       minOpenConns := minOpenConns po;
       maxOpenConns := maxOpenConns po;
       watchBufferLength := watchBufferLength po;
       revisionQuantization := revisionQuantization po;
       gcWindow := window |}.

(** *** Option sequences built from the seven exported setters

    [CRDBOption] values are closures; to speak about "the last option that
    set a field" a call site is described by which setter was called with
    which argument, and [setter] gives the closure that call returns. *)
Inductive OptionCall : Type :=
| CallConnMaxIdleTime (idle : Duration)
| CallConnMaxLifetime (lifetime : Duration)
| CallMinOpenConns (conns : Z)
| CallMaxOpenConns (conns : Z)
| CallWatchBufferLength (len : Z)
| CallRevisionQuantization (bucketSize : Duration)
| CallGCWindow (window : Duration).

Definition setter (c : OptionCall) : CRDBOption :=
  match c with
  | CallConnMaxIdleTime idle => ConnMaxIdleTime idle
  | CallConnMaxLifetime lifetime => ConnMaxLifetime lifetime
  | CallMinOpenConns conns => MinOpenConns conns
  | CallMaxOpenConns conns => MaxOpenConns conns
  | CallWatchBufferLength len => WatchBufferLength len
  | CallRevisionQuantization bucketSize => RevisionQuantization bucketSize
  | CallGCWindow window => GCWindow window
  end.

(** Specification side of last-write-wins: the argument of the last call
    in [calls] that [sel] recognises, if there is one. *)
Fixpoint lastApplied {A : Type} (sel : OptionCall -> option A)
  (calls : list OptionCall) : option A :=
  match calls with
  | [] => None
  | c :: rest =>
      match lastApplied sel rest with
      | Some v => Some v
      | None => sel c
      end
  end.

Definition orDefault {A : Type} (d : A) (o : option A) : A :=
  match o with Some v => v | None => d end.

Definition selConnMaxIdleTime (c : OptionCall) : option Duration :=
  match c with CallConnMaxIdleTime d => Some d | _ => None end.
Definition selConnMaxLifetime (c : OptionCall) : option Duration :=
  match c with CallConnMaxLifetime d => Some d | _ => None end.
Definition selMinOpenConns (c : OptionCall) : option Z :=
  match c with CallMinOpenConns n => Some n | _ => None end.
Definition selMaxOpenConns (c : OptionCall) : option Z :=
  match c with CallMaxOpenConns n => Some n | _ => None end.
Definition selWatchBufferLength (c : OptionCall) : option Z :=
  match c with CallWatchBufferLength n => Some n | _ => None end.
Definition selRevisionQuantization (c : OptionCall) : option Duration :=
  match c with CallRevisionQuantization d => Some d | _ => None end.
Definition selGCWindow (c : OptionCall) : option Duration :=
  match c with CallGCWindow d => Some d | _ => None end.

(** The configuration the specification describes for a call sequence:
    per field, the last value written to it, and the value of [start]
    where no call wrote the field. *)
Definition lastWriteWins (calls : list OptionCall) (start : crdbOptions)
  : crdbOptions :=
  {| connMaxIdleTime :=
       match lastApplied selConnMaxIdleTime calls with
       | Some d => Some d
       | None => connMaxIdleTime start
       end;
     connMaxLifetime :=
       match lastApplied selConnMaxLifetime calls with
       | Some d => Some d
       | None => connMaxLifetime start
       end;
     minOpenConns :=
       match lastApplied selMinOpenConns calls with
       | Some n => Some n
       | None => minOpenConns start
       end;
     maxOpenConns :=
       match lastApplied selMaxOpenConns calls with
       | Some n => Some n
       | None => maxOpenConns start
       end;
     watchBufferLength :=
       orDefault (watchBufferLength start)
         (lastApplied selWatchBufferLength calls);
     revisionQuantization :=
       orDefault (revisionQuantization start)
         (lastApplied selRevisionQuantization calls);
     gcWindow :=
       orDefault (gcWindow start) (lastApplied selGCWindow calls) |}.

End crdb.

(** ** The backend, as seen through pgx

    pgx and the SQL server are not part of the repository.  This module
    is the executable model of them that the driver is run against:
      - the server holds the committed database;
      - a transaction works on a private copy, which [Commit] installs as
        the new committed database in one step and [Rollback] discards
        (the all-or-nothing behaviour of SQL transactions);
      - every call that reaches the server is appended to a log, and the
        outcome of the n-th call is dictated by a fault schedule, so that
        any call may fail with any error (lost connection, cancelled
        context, server-side error, ...).  A failing call changes nothing
        in the committed database. *)

Module pgx.

(** A library call that returns a pointer and an error. *)
Inductive result (A : Type) : Type :=
| Ok (a : A)
| Err (e : error).
Arguments Ok {A} a.
Arguments Err {A} e.

Record ConnConfig : Type := mkConnConfig {
  ConnString : string;
  Logger : option string
}.

(** A connection handle. *)
Record Conn : Type := mkConn { Config : ConnConfig }.

(** A transaction handle, bound to the connection it was begun on. *)
Record Tx : Type := mkTx { TxConn : Conn }.

Record CommandTag : Type := mkCommandTag { Rows : Z }.

Definition RowsAffected (ct : CommandTag) : Z := Rows ct.

(** The database: the rows of the one-column table [schema_version]
    ([None] when the table does not exist) and every other table, by
    name, as rows of column values. *)
Record Database : Type := mkDatabase {
  schema_version : option (list string);
  tables : list (string * list (list string))
}.

Inductive Event : Type :=
| EvConnect (cfg : ConnConfig)
| EvBegin
| EvQuery (sql : string)
| EvExec (sql : string) (params : list string)
| EvCommit
| EvRollback.

Record World : Type := mkWorld {
  committed : Database;
  tx : option Database;        (* working copy of the open transaction *)
  live : nat;                  (* connections established *)
  log : list Event;            (* calls received, oldest first *)
  faults : nat -> option error (* outcome imposed on the n-th call *)
}.

(** State-passing computations over the world. *)
Definition M (A : Type) : Type := World -> A * World.

Definition ret {A : Type} (a : A) : M A := fun w => (a, w).

Definition bind {A B : Type} (m : M A) (k : A -> M B) : M B :=
  fun w => let (a, w') := m w in k a w'.

(** Go's [defer d] at the head of a block: [d] runs when the block is
    left, whatever path leaves it, and its own result is dropped. *)
Definition defer {A B : Type} (d : M B) (body : M A) : M A :=
  bind body (fun r => bind d (fun _ => ret r)).

(** The fault, if any, that the schedule imposes on the next call. *)
Definition nextFault (w : World) : option error := faults w (List.length (log w)).

(** The fault imposed on the call that comes [k] calls after the next. *)
Definition faultAt (w : World) (k : nat) : option error :=
  faults w (List.length (log w) + k)%nat.

Definition received (ev : Event) (w : World) : World :=
  {| committed := committed w; tx := tx w; live := live w;
     log := (log w ++ [ev])%list; faults := faults w |}.

Definition setTx (t : option Database) (w : World) : World :=
  {| committed := committed w; tx := t; live := live w;
     log := log w; faults := faults w |}.

Definition setCommitted (d : Database) (w : World) : World :=
  {| committed := d; tx := tx w; live := live w;
     log := log w; faults := faults w |}.

Definition addLive (w : World) : World :=
  {| committed := committed w; tx := tx w; live := S (live w);
     log := log w; faults := faults w |}.

Definition missingTable : error :=
  PgError "42P01" "relation schema_version does not exist".

Definition notUnderstood : error :=
  PgError "42601" "statement not modelled".

Definition loadVersionSQL : string :=
  "SELECT version_num from schema_version".
Definition writeVersionSQL : string :=
  "UPDATE schema_version SET version_num=$1 WHERE version_num=$2".

(** [UPDATE schema_version SET version_num=v WHERE version_num=r] on a
    list of rows: the rewritten rows and the number of rows touched. *)
Fixpoint updateRows (v r : string) (rows : list string) : list string * Z :=
  match rows with
  | [] => ([], 0)
  | row :: rest =>
      let (rest', n) := updateRows v r rest in
      if String.eqb row r then (v :: rest', n + 1) else (row :: rest', n)
  end.

(** The two statements the driver issues, executed on a database. *)
Definition runExec (sql : string) (params : list string) (d : Database)
  : result (CommandTag * Database) :=
  if String.eqb sql writeVersionSQL then
    match params, schema_version d with
    | [v; r], Some rows =>
        let (rows', n) := updateRows v r rows in
        Ok ({| Rows := n |},
            {| schema_version := Some rows'; tables := tables d |})
    | [_; _], None => Err missingTable
    | _, _ => Err notUnderstood
    end
  else Err notUnderstood.

Definition runQueryRow (sql : string) (d : Database) : result string :=
  if String.eqb sql loadVersionSQL then
    match schema_version d with
    | None => Err missingTable
    | Some [] => Err ErrNoRows
    | Some (row :: _) => Ok row
    end
  else Err notUnderstood.

(** [pgx.ConnectConfig]. *)
Definition ConnectConfig (cfg : ConnConfig) : M (result Conn) :=
  fun w =>
    let w' := received (EvConnect cfg) w in
    match nextFault w with
    | Some e => (Err e, w')
    | None => (Ok {| Config := cfg |}, addLive w')
    end.

(** [conn.QueryRow(ctx, sql).Scan(&dst)] for a one-column row: the
    scanned value (left at its zero value on failure) and the error. *)
Definition QueryRowScan (db : Conn) (sql : string) : M (string * option error) :=
  fun w =>
    let w' := received (EvQuery sql) w in
    match nextFault w with
    | Some e => (("", Some e), w')
    | None =>
        match runQueryRow sql (committed w) with
        | Ok v => ((v, None), w')
        | Err e => (("", Some e), w')
        end
    end.

(** The world once [BeginTx] has succeeded. *)
Definition begun (w : World) : World :=
  setTx (Some (committed w)) (received EvBegin w).

(** [conn.BeginTx], for the read-write transactions the driver asks for:
    the working copy starts as the committed database. *)
Definition BeginTx (db : Conn) : M (result Tx) :=
  fun w =>
    match nextFault w with
    | Some e => (Err e, received EvBegin w)
    | None => (Ok {| TxConn := db |}, begun w)
    end.

(** [tx.Exec]. *)
Definition Exec (t : Tx) (sql : string) (params : list string)
  : M (CommandTag * option error) :=
  fun w =>
    match tx w with
    | None => (({| Rows := 0 |}, Some ErrTxClosed), w)
    | Some d =>
        let w' := received (EvExec sql params) w in
        match nextFault w with
        | Some e => (({| Rows := 0 |}, Some e), w')
        | None =>
            match runExec sql params d with
            | Ok (ct, d') => ((ct, None), setTx (Some d') w')
            | Err e => (({| Rows := 0 |}, Some e), w')
            end
        end
    end.

(** [tx.Commit]: the handle is closed whatever the outcome; the working
    copy becomes the committed database only when the call succeeds. *)
Definition Commit (t : Tx) : M (option error) :=
  fun w =>
    match tx w with
    | None => (Some ErrTxClosed, w)
    | Some d =>
        let w' := setTx None (received EvCommit w) in
        match nextFault w with
        | Some e => (Some e, w')
        | None => (None, setCommitted d w')
        end
    end.

(** [tx.Rollback]: on a closed handle it only reports [ErrTxClosed];
    otherwise the working copy is discarded, whatever the call reports. *)
Definition Rollback (t : Tx) : M (option error) :=
  fun w =>
    match tx w with
    | None => (Some ErrTxClosed, w)
    | Some _ =>
        let w' := setTx None (received EvRollback w) in
        (nextFault w, w')
    end.

End pgx.

(** ** pkg/migrate: the shape of a migration body

    [migrate.MigrationFunc] receives the transaction handle the runner
    opened.  A body works through that handle only, and must not commit or
    roll back itself: it is a function from the transaction's working copy
    to its new contents and the error it returns. *)
Module migrate.

Definition MigrationFunc : Type :=
  pgx.Database -> option error * pgx.Database.

(** Calling a body with a transaction handle. *)
Definition call (f : MigrationFunc) (t : pgx.Tx) : pgx.M (option error) :=
  fun w =>
    match pgx.tx w with
    | None => (Some ErrTxClosed, w)
    | Some d => let (err, d') := f d in (err, pgx.setTx (Some d') w)
    end.

End migrate.

(** ** migrations/driver.go *)

Module migrations.

Import pgx.

Notation "x <- m ;; k" := (bind m (fun x => k))
  (at level 61, m at next level, right associativity).
Notation "' p <- m ;; k" := (bind m (fun x => match x with p => k end))
  (at level 61, p pattern, m at next level, right associativity).

Definition errUnableToInstantiate : string :=
  "unable to instantiate CRDBDriver: %w".

Definition postgresMissingTableErrorCode : string := "42P01".

Definition queryLoadVersion : string :=
  "SELECT version_num from schema_version".
Definition queryWriteVersion : string :=
  "UPDATE schema_version SET version_num=$1 WHERE version_num=$2".

Record CRDBDriver : Type := mkDriver { db : Conn }.

Section Open.

(** [pgx.ParseConfig], a pure function of the connection string. *)
Variable ParseConfig : string -> result ConnConfig.

(** [zerologadapter.NewLogger(log.Logger)]. *)
Definition zerologLogger : string := "zerolog".

Definition NewCRDBDriver (url : string)
  : M (option CRDBDriver * option error) :=
  match ParseConfig url with
  | Err err => ret (None, Some (Wrapf errUnableToInstantiate err))
  | Ok connConfig =>
      let connConfig :=
        {| ConnString := ConnString connConfig;
           Logger := Some zerologLogger |} in
      r <- ConnectConfig connConfig ;;
      match r with
      | Err err => ret (None, Some (Wrapf errUnableToInstantiate err))
      | Ok db => ret (Some {| db := db |}, None)
      end
  end.

End Open.

Definition Version (apd : CRDBDriver) : M (string * option error) :=
  '(loaded, err) <- QueryRowScan (db apd) queryLoadVersion ;;
  match err with
  | Some e =>
      let pgErr := errors_As_PgError e in
      if match pgErr with
         | Some (code, _) => String.eqb code postgresMissingTableErrorCode
         | None => false
         end
      then ret ("", None)
      else ret ("", Some (Wrapf "unable to load alembic revision: %w" e))
  | None => ret (loaded, None)
  end.

(** The second test of [err] is kept as it stands in the source: [err] is
    not assigned between the two tests. *)
Definition writeVersion (t : Tx) (version replaced : string)
  : M (option error) :=
  '(result, err) <- Exec t queryWriteVersion [version; replaced] ;;
  match err with
  | Some e => ret (Some (Wrapf "unable to update version row: %w" e))
  | None =>
      let updatedCount := RowsAffected result in
      match err with
      | Some e =>
          ret (Some
                 (Wrapf "unable to compute number of rows affected: %w" e))
      | None =>
          if negb (Z.eqb updatedCount 1) then
            ret (Some
                   (Errorf
                      "writing version update affected %d rows, should be 1"
                      [ArgInt updatedCount]))
          else ret None
      end
  end.

Definition Transact (apd : CRDBDriver) (f : migrate.MigrationFunc)
  (version replaced : string) : M (option error) :=
  r <- BeginTx (db apd) ;;
  match r with
  | Err err => ret (Some err)
  | Ok t =>
      defer (Rollback t)
        (err <- migrate.call f t ;;
         match err with
         | Some e => ret (Some e)
         | None =>
             err <- writeVersion t version replaced ;;
             match err with
             | Some e => ret (Some e)
             | None => Commit t
             end
         end)
  end.

End migrations.

(** ** The registration surface of the MySQL migrations *)

Module mysql.

(** A registered migration: its version and the version it replaces (the
    body plays no part in registration). *)
Record migration : Type := mkMigration {
  version : string;
  replaces : string
}.

Definition isDigit (c : Ascii.ascii) : bool :=
  let n := Ascii.nat_of_ascii c in
  (Nat.leb 48 n && Nat.leb n 57)%bool.

(** Modelled from the spec: the "disallowed numeric prefix" of an
    identifier, which the missing registration code refuses: a version
    identifier that starts with a decimal digit. *)
Definition numericPrefix (v : string) : bool :=
  match v with
  | String c _ => isDigit c
  | EmptyString => false
  end.

Section Registration.

(** The backend's supported identifier grammar. *)
Variable supported : string -> bool.

(** Modelled from the spec: [registerMigration] is missing from the
    sources at hand (only its test is present).  Registration validates
    the version identifier against the backend's supported identifier
    grammar and rejects, with an error, an identifier that does not
    conform; a rejected migration is not added to the registry. *)
Definition registerMigration (v r : string) (registry : list migration)
  : option error * list migration :=
  if supported v then
    (None, (registry ++ [{| version := v; replaces := r |}])%list)
  else
    (Some (Errorf "unsupported migration version identifier" []), registry).

End Registration.

End mysql.

(** ** Concrete inputs used to exercise the statements below *)

Module samples.

Import crdb pgx.

Definition sampleCalls : list OptionCall :=
  [CallGCWindow (2 * Hour); CallMaxOpenConns 10;
   CallRevisionQuantization (1 * Second); CallGCWindow (1 * Hour);
   CallMaxOpenConns 20].

Definition sampleConn : Conn :=
  {| Config := {| ConnString := "postgres://localhost/spicedb";
                  Logger := None |} |}.

Definition sampleDriver : migrations.CRDBDriver :=
  {| migrations.db := sampleConn |}.

(** A backend with one connection established, no transaction open, no
    table besides the version table with the given rows ([None]: the
    table does not exist), and the given fault schedule. *)
Definition worldAt (rows : option (list string))
  (schedule : nat -> option error) : World :=
  {| committed := {| schema_version := rows; tables := [] |};
     tx := None; live := 1; log := []; faults := schedule |}.

Definition noFaults : nat -> option error := fun _ => None.

(** A backend nobody is connected to yet, with an empty database. *)
Definition unconnected (schedule : nat -> option error) : World :=
  {| committed := {| schema_version := None; tables := [] |};
     tx := None; live := 0; log := []; faults := schedule |}.

(** The grammar that refuses exactly the identifiers starting with a
    decimal digit. *)
Definition noNumericPrefix (v : string) : bool :=
  negb (mysql.numericPrefix v).

(** Only the call number [k] fails, with [e]. *)
Definition failAt (k : nat) (e : error) : nat -> option error :=
  fun n => if Nat.eqb n k then Some e else None.

(** A body that creates a table and then fails. *)
Definition failingBody : migrate.MigrationFunc :=
  fun d =>
    (Some (External "migration failed"),
     {| schema_version := schema_version d;
        tables := ("relation_tuple", [["row"]]) :: tables d |}).

(** A body that creates a table and succeeds. *)
Definition addTableBody : migrate.MigrationFunc :=
  fun d =>
    (None,
     {| schema_version := schema_version d;
        tables := ("relation_tuple", [["row"]]) :: tables d |}).

(** A connection-string parser that accepts exactly the URLs starting
    with [postgres]. *)
Definition sampleParse (url : string) : result ConnConfig :=
  if String.prefix "postgres" url then
    Ok {| ConnString := url; Logger := None |}
  else Err (External "cannot parse connection string").

End samples.

(** ** Further vocabulary for the statements about options and runs *)

Module vocabulary.

Import crdb pgx.

(** The field of [crdbOptions] a setter call assigns. *)
Inductive Field : Type :=
| FConnMaxIdleTime
| FConnMaxLifetime
| FMinOpenConns
| FMaxOpenConns
| FWatchBufferLength
| FRevisionQuantization
| FGCWindow.

Definition fieldOf (c : OptionCall) : Field :=
  match c with
  | CallConnMaxIdleTime _ => FConnMaxIdleTime
  | CallConnMaxLifetime _ => FConnMaxLifetime
  | CallMinOpenConns _ => FMinOpenConns
  | CallMaxOpenConns _ => FMaxOpenConns
  | CallWatchBufferLength _ => FWatchBufferLength
  | CallRevisionQuantization _ => FRevisionQuantization
  | CallGCWindow _ => FGCWindow
  end.

(** A selector that recognises exactly the calls of one field. *)
Definition selectsField {A : Type} (sel : OptionCall -> option A)
  (k : Field) : Prop :=
  forall c, fieldOf c = k <-> sel c <> None.

(** Calls that assign one of the two durations [generateConfig] compares. *)
Definition timingCall (c : OptionCall) : bool :=
  match c with
  | CallRevisionQuantization _ | CallGCWindow _ => true
  | _ => false
  end.

(** The calls [Transact] can send, in the order it sends them. *)
Definition transactTraces (version replaced : string) : list (list Event) :=
  let update := EvExec migrations.queryWriteVersion [version; replaced] in
  [ [EvBegin];
    [EvBegin; EvRollback];
    [EvBegin; update; EvRollback];
    [EvBegin; update; EvCommit] ].

(** The error, if any, with which the version update fails when it runs
    on the working copy [d]: the fault [next] imposed on the call, or
    else the absence of the version table. *)
Definition updateFailure (next : option error) (d : Database)
  : option error :=
  match next with
  | Some e => Some e
  | None =>
      match schema_version d with
      | None => Some missingTable
      | Some _ => None
      end
  end.

(** A body that changes nothing and succeeds. *)
Definition idleBody : migrate.MigrationFunc := fun d => (None, d).

(** The first migration of a fresh database: it creates the version
    table with one row holding the empty version. *)
Definition createVersionTable : migrate.MigrationFunc :=
  fun d => (None, {| schema_version := Some [""]; tables := tables d |}).

Definition poolCalls : list OptionCall :=
  [CallMinOpenConns (-4); CallMaxOpenConns (-9); CallWatchBufferLength 0;
   CallConnMaxIdleTime (-1); CallConnMaxLifetime 0].

Definition shuffledA : list OptionCall :=
  [CallGCWindow (2 * Hour); CallMaxOpenConns 10;
   CallRevisionQuantization (1 * Second)].

Definition shuffledB : list OptionCall :=
  [CallRevisionQuantization (1 * Second); CallGCWindow (2 * Hour);
   CallMaxOpenConns 10].

End vocabulary.

(** * Properties of the configuration builder *)

Module crdb_facts.

Import crdb samples.

Lemma applyOptions_cons (o : CRDBOption) (options : list CRDBOption)
  (start : crdbOptions) :
  applyOptions (o :: options) start = applyOptions options (o start).
Proof. reflexivity. Qed.

(** One more call in front of a sequence: it is visible in a field exactly
    when no later call writes that field. *)
Lemma lastWriteWins_cons (c : OptionCall) (rest : list OptionCall)
  (start : crdbOptions) :
  lastWriteWins (c :: rest) start = lastWriteWins rest (setter c start).
Proof.
  unfold lastWriteWins; cbn [lastApplied].
  destruct c; cbn;
    destruct (lastApplied selConnMaxIdleTime rest);
    destruct (lastApplied selConnMaxLifetime rest);
    destruct (lastApplied selMinOpenConns rest);
    destruct (lastApplied selMaxOpenConns rest);
    destruct (lastApplied selWatchBufferLength rest);
    destruct (lastApplied selRevisionQuantization rest);
    destruct (lastApplied selGCWindow rest);
    reflexivity.
Qed.

Lemma lastWriteWins_nil (start : crdbOptions) : lastWriteWins [] start = start.
Proof. destruct start; reflexivity. Qed.

(** The loop of [generateConfig], run on closures obtained from the
    exported setters, computes the last-write-wins record. *)
Lemma applyOptions_lastWriteWins (calls : list OptionCall) :
  forall start : crdbOptions,
    applyOptions (map setter calls) start = lastWriteWins calls start.
Proof.
  induction calls as [| c rest IH]; intro start.
  - now rewrite lastWriteWins_nil.
  - cbn [map]. rewrite applyOptions_cons, IH. symmetry.
    apply lastWriteWins_cons.
Qed.

Lemma generateConfig_fst (options : list CRDBOption) :
  fst (generateConfig options) = applyOptions options initialOptions.
Proof.
  unfold generateConfig.
  now destruct (_ >=? _).
Qed.

(** C3: whenever the values of [revisionQuantization] and [gcWindow]
    left by the whole option sequence satisfy
    [revisionQuantization >= gcWindow], [generateConfig] itself returns a
    non-nil error, built from [errQuantizationTooLarge] and carrying
    exactly these two values, in this order.  The options are arbitrary
    closures. *)
Theorem generateConfig_quantization_too_large (options : list CRDBOption) :
  let computed := applyOptions options initialOptions in
  revisionQuantization computed >= gcWindow computed ->
  snd (generateConfig options) =
    Some (Errorf errQuantizationTooLarge
            [ArgDuration (revisionQuantization computed);
             ArgDuration (gcWindow computed)]).
Proof.
  intros computed H. unfold generateConfig. fold computed.
  destruct (revisionQuantization computed >=? gcWindow computed) eqn:E.
  - reflexivity.
  - rewrite Z.geb_leb in E. apply Z.leb_gt in E. lia.
Qed.

(** The concrete case of C3: the default quantization of 5s against a GC
    window of 1s. *)
Lemma generateConfig_quantization_too_large_witness :
  revisionQuantization (applyOptions [GCWindow (1 * Second)] initialOptions)
    >= gcWindow (applyOptions [GCWindow (1 * Second)] initialOptions)
  /\ snd (generateConfig [GCWindow (1 * Second)]) =
       Some (Errorf errQuantizationTooLarge
               [ArgDuration 5000000000; ArgDuration 1000000000]).
Proof.
  split.
  - vm_compute. discriminate.
  - apply (generateConfig_quantization_too_large [GCWindow (1 * Second)]).
    vm_compute. discriminate.
Defined.

(** C4: when the option sequence, made of calls to the exported setters,
    leaves [revisionQuantization < gcWindow], [generateConfig] returns a
    nil error and a configuration where every field holds the argument of
    the last call that set it, and its default where no call did: unset
    for the pool bounds and timeouts, 128 for [watchBufferLength], 5s for
    [revisionQuantization] and 24h for [gcWindow]. *)
Theorem generateConfig_last_write_wins (calls : list OptionCall) :
  let options := map setter calls in
  let computed := applyOptions options initialOptions in
  revisionQuantization computed < gcWindow computed ->
  let cfg := fst (generateConfig options) in
  snd (generateConfig options) = None
  /\ connMaxIdleTime cfg = lastApplied selConnMaxIdleTime calls
  /\ connMaxLifetime cfg = lastApplied selConnMaxLifetime calls
  /\ minOpenConns cfg = lastApplied selMinOpenConns calls
  /\ maxOpenConns cfg = lastApplied selMaxOpenConns calls
  /\ watchBufferLength cfg =
       orDefault 128 (lastApplied selWatchBufferLength calls)
  /\ revisionQuantization cfg =
       orDefault (5 * 1000000000)
         (lastApplied selRevisionQuantization calls)
  /\ gcWindow cfg =
       orDefault (24 * (3600 * 1000000000)) (lastApplied selGCWindow calls).
Proof.
  intros options computed H cfg.
  assert (Hcfg : cfg = lastWriteWins calls initialOptions).
  { unfold cfg, options. rewrite generateConfig_fst.
    apply applyOptions_lastWriteWins. }
  split.
  - unfold generateConfig. fold options. fold computed.
    destruct (revisionQuantization computed >=? gcWindow computed) eqn:E.
    + apply Z.geb_le in E. lia.
    + reflexivity.
  - rewrite Hcfg. unfold lastWriteWins; cbn.
    repeat split;
      match goal with
      | |- context [lastApplied ?s calls] =>
          destruct (lastApplied s calls); reflexivity
      end.
Qed.

(** A sequence that sets the GC window and the pool bound twice: the
    later values are the ones kept. *)
Lemma generateConfig_last_write_wins_witness :
  let options := map setter sampleCalls in
  revisionQuantization (applyOptions options initialOptions)
    < gcWindow (applyOptions options initialOptions)
  /\ generateConfig options =
       ({| connMaxIdleTime := None;
           connMaxLifetime := None;
           minOpenConns := None;
           maxOpenConns := Some 20;
           watchBufferLength := 128;
           revisionQuantization := 1000000000;
           gcWindow := 3600000000000 |}, None).
Proof.
  intro options.
  assert (H : revisionQuantization (applyOptions options initialOptions)
              < gcWindow (applyOptions options initialOptions))
    by (vm_compute; reflexivity).
  split; [exact H |].
  destruct (generateConfig_last_write_wins sampleCalls H)
    as (E & F1 & F2 & F3 & F4 & F5 & F6 & F7).
  fold options in E, F1, F2, F3, F4, F5, F6, F7.
  destruct (generateConfig options) as [cfg err].
  cbn [fst snd] in *. subst err. f_equal.
  destruct cfg; cbn in *. now subst.
Defined.

(** C10: on the failing path ([revisionQuantization >= gcWindow] after
    all options ran) the first component returned by [generateConfig] is
    the record exactly as the options left it, next to a non-nil error;
    for calls to the exported setters this is the last-write-wins record
    over the defaults, offending values included. *)
Theorem generateConfig_error_keeps_computed (options : list CRDBOption) :
  let computed := applyOptions options initialOptions in
  revisionQuantization computed >= gcWindow computed ->
  fst (generateConfig options) = computed
  /\ snd (generateConfig options) <> None
  /\ forall calls : list OptionCall,
       options = map setter calls ->
       fst (generateConfig options) = lastWriteWins calls initialOptions.
Proof.
  intros computed H. split; [apply generateConfig_fst |]. split.
  - unfold generateConfig. fold computed.
    destruct (revisionQuantization computed >=? gcWindow computed) eqn:E.
    + discriminate.
    + rewrite Z.geb_leb in E. apply Z.leb_gt in E. lia.
  - intros calls ->. rewrite generateConfig_fst.
    apply applyOptions_lastWriteWins.
Qed.

Lemma generateConfig_error_keeps_computed_witness :
  fst (generateConfig [MinOpenConns 3; GCWindow (1 * Second)]) =
    {| connMaxIdleTime := None;
       connMaxLifetime := None;
       minOpenConns := Some 3;
       maxOpenConns := None;
       watchBufferLength := 128;
       revisionQuantization := 5000000000;
       gcWindow := 1000000000 |}
  /\ snd (generateConfig [MinOpenConns 3; GCWindow (1 * Second)]) <> None.
Proof.
  assert (H : revisionQuantization
                (applyOptions [MinOpenConns 3; GCWindow (1 * Second)]
                   initialOptions)
              >= gcWindow
                   (applyOptions [MinOpenConns 3; GCWindow (1 * Second)]
                      initialOptions))
    by (vm_compute; discriminate).
  destruct (generateConfig_error_keeps_computed
              [MinOpenConns 3; GCWindow (1 * Second)] H) as (H1 & H2 & _).
  split; [exact H1 | exact H2].
Defined.

End crdb_facts.

(** * Properties of the migration driver *)

Module migrations_facts.

Import pgx migrate migrations samples.

(** ** The fault schedule along a run *)

Lemma nextFault_faultAt (w : World) : nextFault w = faultAt w 0.
Proof. unfold nextFault, faultAt. now rewrite Nat.add_0_r. Qed.

Lemma faultAt_received (ev : Event) (w : World) (k : nat) :
  faultAt (received ev w) k = faultAt w (S k).
Proof.
  unfold faultAt, received; cbn. rewrite length_app; cbn.
  f_equal. lia.
Qed.

Lemma faultAt_setTx (t : option Database) (w : World) (k : nat) :
  faultAt (setTx t w) k = faultAt w k.
Proof. reflexivity. Qed.

Lemma faultAt_setCommitted (d : Database) (w : World) (k : nat) :
  faultAt (setCommitted d w) k = faultAt w k.
Proof. reflexivity. Qed.

(** ** The version update *)

Lemma updateRows_count (v r : string) (rows : list string) :
  snd (updateRows v r rows) = Z.of_nat (count_occ string_dec rows r).
Proof.
  induction rows as [| row rest IH]; [reflexivity |].
  cbn [updateRows count_occ].
  destruct (updateRows v r rest) as [rest' n]; cbn [snd] in IH.
  destruct (string_dec row r) as [-> | Hne].
  - rewrite String.eqb_refl; cbn [snd]. lia.
  - apply String.eqb_neq in Hne. rewrite Hne; cbn [snd]. exact IH.
Qed.

Lemma updateRows_zero_iff (v r : string) (rows : list string) :
  snd (updateRows v r rows) = 0 <-> ~ In r rows.
Proof.
  rewrite updateRows_count, (count_occ_not_In string_dec). lia.
Qed.

Lemma updateRows_single (v r row : string) :
  snd (updateRows v r [row]) = 1 -> updateRows v r [row] = ([v], 1).
Proof.
  cbn. destruct (String.eqb row r); cbn; [reflexivity | discriminate].
Qed.

(** ** [Version] *)

(** A read that is not disturbed sees the committed database only. *)
Lemma QueryRowScan_committed (c : Conn) (sql : string) (w1 w2 : World) :
  faultAt w1 0 = None -> faultAt w2 0 = None ->
  committed w1 = committed w2 ->
  fst (QueryRowScan c sql w1) = fst (QueryRowScan c sql w2).
Proof.
  intros H1 H2 Hc. unfold QueryRowScan.
  rewrite !nextFault_faultAt, H1, H2, Hc.
  now destruct (runQueryRow sql (committed w2)).
Qed.

Lemma Version_committed (apd : CRDBDriver) (w1 w2 : World) :
  faultAt w1 0 = None -> faultAt w2 0 = None ->
  committed w1 = committed w2 ->
  fst (Version apd w1) = fst (Version apd w2).
Proof.
  intros H1 H2 Hc. unfold Version, bind.
  pose proof (QueryRowScan_committed (db apd) queryLoadVersion w1 w2 H1 H2 Hc)
    as Hq.
  destruct (QueryRowScan (db apd) queryLoadVersion w1) as [[l1 e1] w1'].
  destruct (QueryRowScan (db apd) queryLoadVersion w2) as [[l2 e2] w2'].
  cbn [fst] in Hq. injection Hq as -> ->.
  destruct e2 as [e |]; [| reflexivity].
  destruct (errors_As_PgError e) as [[code msg] |]; [| reflexivity].
  now destruct (String.eqb code postgresMissingTableErrorCode).
Qed.

(** ** Runs of [Transact] *)

Lemma Transact_begin_fails (apd : CRDBDriver) (f : MigrationFunc)
  (version replaced : string) (w : World) (e : error) :
  faultAt w 0 = Some e ->
  Transact apd f version replaced w = (Some e, received EvBegin w).
Proof.
  intro H. unfold Transact, bind, BeginTx.
  now rewrite nextFault_faultAt, H.
Qed.

Lemma Transact_body_fails (apd : CRDBDriver) (f : MigrationFunc)
  (version replaced : string) (w : World) (e : error) (d' : Database) :
  faultAt w 0 = None ->
  f (committed w) = (Some e, d') ->
  Transact apd f version replaced w =
    (Some e, setTx None (received EvRollback (setTx (Some d') (begun w)))).
Proof.
  intros H Hf. unfold Transact, bind, BeginTx.
  rewrite nextFault_faultAt, H.
  unfold defer, bind, call; cbn. rewrite Hf. reflexivity.
Qed.

Lemma writeVersion_run (t : Tx) (version replaced : string) (w : World)
  (d : Database) (rows rows' : list string) (n : Z) :
  tx w = Some d ->
  faultAt w 0 = None ->
  schema_version d = Some rows ->
  updateRows version replaced rows = (rows', n) ->
  writeVersion t version replaced w =
    (if Z.eqb n 1 then None
     else Some (Errorf "writing version update affected %d rows, should be 1"
                  [ArgInt n]),
     setTx (Some {| schema_version := Some rows'; tables := tables d |})
       (received (EvExec queryWriteVersion [version; replaced]) w)).
Proof.
  intros Htx Hfault Hrows Hupd.
  unfold writeVersion, bind, Exec.
  rewrite Htx, nextFault_faultAt, Hfault.
  unfold runExec, queryWriteVersion, writeVersionSQL.
  rewrite String.eqb_refl, Hrows, Hupd.
  cbn. now destruct (Z.eqb n 1).
Qed.

(** The body succeeded and the update touched [n] rows, [n] not 1. *)
Lemma Transact_not_one_row (apd : CRDBDriver) (f : MigrationFunc)
  (version replaced : string) (w : World) (d1 : Database)
  (rows rows' : list string) (n : Z) :
  faultAt w 0 = None ->
  f (committed w) = (None, d1) ->
  faultAt w 1 = None ->
  schema_version d1 = Some rows ->
  updateRows version replaced rows = (rows', n) ->
  n <> 1 ->
  Transact apd f version replaced w =
    (Some (Errorf "writing version update affected %d rows, should be 1"
             [ArgInt n]),
     setTx None
       (received EvRollback
          (setTx (Some {| schema_version := Some rows'; tables := tables d1 |})
             (received (EvExec queryWriteVersion [version; replaced])
                (setTx (Some d1) (begun w)))))).
Proof.
  intros H0 Hf H1 Hrows Hupd Hn.
  unfold Transact, bind at 1, BeginTx.
  rewrite nextFault_faultAt, H0.
  unfold defer, bind at 1 2, call; cbn [tx begun setTx]. rewrite Hf.
  unfold bind at 1.
  erewrite writeVersion_run with (d := d1); eauto.
  - apply Z.eqb_neq in Hn. rewrite Hn. reflexivity.
  - unfold begun. now rewrite faultAt_setTx, faultAt_setTx, faultAt_received.
Qed.

(** The body succeeded and the update touched one row: the outcome is
    that of the commit. *)
Lemma Transact_one_row (apd : CRDBDriver) (f : MigrationFunc)
  (version replaced : string) (w : World) (d1 : Database)
  (rows rows' : list string) :
  faultAt w 0 = None ->
  f (committed w) = (None, d1) ->
  faultAt w 1 = None ->
  schema_version d1 = Some rows ->
  updateRows version replaced rows = (rows', 1) ->
  let d2 := {| schema_version := Some rows'; tables := tables d1 |} in
  let w3 :=
    setTx None
      (received EvCommit
         (setTx (Some d2)
            (received (EvExec queryWriteVersion [version; replaced])
               (setTx (Some d1) (begun w))))) in
  Transact apd f version replaced w =
    match faultAt w 2 with
    | Some ce => (Some ce, w3)
    | None => (None, setCommitted d2 w3)
    end.
Proof.
  intros H0 Hf H1 Hrows Hupd d2 w3.
  unfold Transact, bind at 1, BeginTx.
  rewrite nextFault_faultAt, H0.
  unfold defer, bind at 1 2, call; cbn [tx begun setTx]. rewrite Hf.
  unfold bind at 1.
  erewrite writeVersion_run with (d := d1); eauto.
  - cbn [Z.eqb Pos.eqb]. unfold Commit at 1. cbn [tx setTx].
    rewrite nextFault_faultAt.
    unfold begun.
    repeat (rewrite faultAt_setTx || rewrite faultAt_received).
    destruct (faultAt w 2); reflexivity.
  - unfold begun. now rewrite faultAt_setTx, faultAt_setTx, faultAt_received.
Qed.

(** [writeVersion] leaves an open transaction open. *)
Lemma writeVersion_keeps_open (t : Tx) (version replaced : string)
  (w : World) (d : Database) :
  tx w = Some d ->
  exists d' : Database, tx (snd (writeVersion t version replaced w)) = Some d'.
Proof.
  intro Htx. unfold writeVersion, bind, Exec. rewrite Htx.
  destruct (nextFault w) as [e |]; [now exists d |].
  destruct (runExec queryWriteVersion [version; replaced] d)
    as [[ct d2] | e2]; [| now exists d].
  exists d2. cbn. now destruct (Z.eqb (RowsAffected ct) 1).
Qed.

Lemma Rollback_open (t : Tx) (w : World) (d : Database) :
  tx w = Some d ->
  Rollback t w = (nextFault w, setTx None (received EvRollback w)).
Proof. intro Htx. unfold Rollback. now rewrite Htx. Qed.

Lemma Rollback_closed (t : Tx) (w : World) :
  tx w = None -> Rollback t w = (Some ErrTxClosed, w).
Proof. intro Htx. unfold Rollback. now rewrite Htx. Qed.

Lemma Commit_open (t : Tx) (w : World) (d : Database) :
  tx w = Some d ->
  Commit t w =
    match nextFault w with
    | Some e => (Some e, setTx None (received EvCommit w))
    | None => (None, setCommitted d (setTx None (received EvCommit w)))
    end.
Proof. intro Htx. unfold Commit. now rewrite Htx. Qed.

(** The run once the transaction is begun and the body has succeeded. *)
Lemma Transact_body_succeeds (apd : CRDBDriver) (f : MigrationFunc)
  (version replaced : string) (w : World) (d1 : Database) :
  faultAt w 0 = None ->
  f (committed w) = (None, d1) ->
  Transact apd f version replaced w =
    defer (Rollback {| TxConn := db apd |})
      (err <- writeVersion {| TxConn := db apd |} version replaced ;;
       match err with
       | Some e => ret (Some e)
       | None => Commit {| TxConn := db apd |}
       end)
      (setTx (Some d1) (begun w)).
Proof.
  intros H0 Hf. unfold Transact, defer, bind, BeginTx, call.
  rewrite nextFault_faultAt, H0. cbn [tx begun setTx]. now rewrite Hf.
Qed.

(** Once the transaction is begun, every way out of [Transact] leaves it
    closed, and the last call sent is the rollback or the commit. *)
Lemma Transact_ends_transaction (apd : CRDBDriver) (f : MigrationFunc)
  (version replaced : string) (w : World) :
  faultAt w 0 = None ->
  let r := Transact apd f version replaced w in
  tx (snd r) = None
  /\ (last (log (snd r)) EvBegin = EvRollback
      \/ last (log (snd r)) EvBegin = EvCommit).
Proof.
  intros H0 r. subst r.
  destruct (f (committed w)) as [[e |] d1] eqn:Hf.
  - rewrite (Transact_body_fails apd f version replaced w e d1 H0 Hf).
    cbn [snd tx log setTx received]. rewrite last_last. auto.
  - rewrite (Transact_body_succeeds apd f version replaced w d1 H0 Hf).
    unfold defer, bind.
    destruct (writeVersion_keeps_open {| TxConn := db apd |} version replaced
                (setTx (Some d1) (begun w)) d1 eq_refl) as [d2 Hopen].
    destruct (writeVersion {| TxConn := db apd |} version replaced
                (setTx (Some d1) (begun w))) as [[e |] w2];
      cbn [snd] in Hopen.
    + unfold ret. cbn beta iota. rewrite (Rollback_open _ w2 d2 Hopen).
      cbn [snd tx log setTx received]. rewrite last_last. auto.
    + rewrite (Commit_open _ w2 d2 Hopen). unfold ret.
      destruct (nextFault w2); cbn beta iota;
        rewrite Rollback_closed by reflexivity;
        cbn [snd tx log setTx setCommitted received]; rewrite last_last; auto.
Qed.

(** ** The claims about [Transact] *)

(** C1: when the transaction was begun and the migration body returns an
    error [e] (having possibly changed the working copy into [d']),
    [Transact] returns exactly [e], whatever the fault schedule imposes on
    the rollback; the only calls sent are the begin and the deferred
    rollback, the transaction is closed, the committed database is the one
    from before the call, and an undisturbed [Version] afterwards returns
    what it would have returned before.  The rollback does not depend on
    the body: whatever body, version and replaced version are run from
    the same world, the transaction ends closed and the last call sent is
    the rollback or the commit. *)
Theorem Transact_body_error_rolls_back (apd : CRDBDriver)
  (f : MigrationFunc) (version replaced : string) (w : World) (e : error)
  (d' : Database) :
  faultAt w 0 = None ->
  f (committed w) = (Some e, d') ->
  let r := Transact apd f version replaced w in
  fst r = Some e
  /\ log (snd r) = (log w ++ [EvBegin; EvRollback])%list
  /\ tx (snd r) = None
  /\ committed (snd r) = committed w
  /\ (faultAt (snd r) 0 = None ->
      fst (Version apd (snd r)) = fst (Version apd w))
  /\ (forall (f' : MigrationFunc) (version' replaced' : string),
        let r' := Transact apd f' version' replaced' w in
        tx (snd r') = None
        /\ (last (log (snd r')) EvBegin = EvRollback
            \/ last (log (snd r')) EvBegin = EvCommit)).
Proof.
  intros H0 Hf r. unfold r.
  rewrite (Transact_body_fails apd f version replaced w e d' H0 Hf).
  cbn [fst snd].
  split; [reflexivity |]. split; [| split; [reflexivity |]].
  - cbn. now rewrite <- app_assoc.
  - split; [reflexivity |]. split.
    + intro H. symmetry. apply Version_committed; [exact H0 | exact H |].
      reflexivity.
    + intros f' version' replaced'.
      now apply Transact_ends_transaction.
Qed.

(** A body that creates a table and fails, with a rollback that fails
    too: the body's error comes back and nothing is changed. *)
Lemma Transact_body_error_rolls_back_witness :
  let w := worldAt (Some ["002"]) (failAt 1 (External "connection lost")) in
  let r := Transact sampleDriver failingBody "003" "002" w in
  fst r = Some (External "migration failed")
  /\ committed (snd r) = committed w
  /\ fst (Version sampleDriver (snd r)) = ("002", None).
Proof.
  intros w r.
  destruct (Transact_body_error_rolls_back sampleDriver failingBody
              "003" "002" w (External "migration failed")
              {| schema_version := Some ["002"];
                 tables := [("relation_tuple", [["row"]])] |}
              eq_refl eq_refl) as (H1 & _ & _ & H4 & H5 & _).
  split; [exact H1 |]. split; [exact H4 |].
  fold r in H5. rewrite (H5 eq_refl). reflexivity.
Defined.

(** C2: when the transaction was begun, the body succeeded, and the
    version update ran and touched [n] rows with [n] different from 1,
    [Transact] returns the error "writing version update affected n rows,
    should be 1" (the driver's version-mismatch error, which wraps
    nothing); the update was sent once, followed by the rollback and no
    commit; the committed database, hence the version an undisturbed
    [Version] reads, is unchanged.  [n] is 0 exactly when no row of the
    version table holds [replaced], and at least 2 otherwise. *)
Theorem Transact_version_mismatch (apd : CRDBDriver) (f : MigrationFunc)
  (version replaced : string) (w : World) (d1 : Database)
  (rows : list string) (n : Z) :
  faultAt w 0 = None ->
  f (committed w) = (None, d1) ->
  faultAt w 1 = None ->
  schema_version d1 = Some rows ->
  snd (updateRows version replaced rows) = n ->
  n <> 1 ->
  let r := Transact apd f version replaced w in
  fst r =
    Some (Errorf "writing version update affected %d rows, should be 1"
            [ArgInt n])
  /\ log (snd r) =
       (log w ++ [EvBegin; EvExec queryWriteVersion [version; replaced];
                  EvRollback])%list
  /\ committed (snd r) = committed w
  /\ (faultAt (snd r) 0 = None ->
      fst (Version apd (snd r)) = fst (Version apd w))
  /\ (n = 0 <-> ~ In replaced rows)
  /\ (n = 0 \/ 2 <= n).
Proof.
  intros H0 Hf H1 Hrows Hupd Hn r. unfold r.
  destruct (updateRows version replaced rows) as [rows' n'] eqn:E.
  cbn [snd] in Hupd; subst n'.
  rewrite (Transact_not_one_row apd f version replaced w d1 rows rows' n
             H0 Hf H1 Hrows E Hn).
  cbn [fst snd]. repeat split.
  - cbn. now rewrite <- !app_assoc.
  - intro H. symmetry. apply Version_committed; [exact H0 | exact H |].
    reflexivity.
  - intros ->. apply (updateRows_zero_iff version). now rewrite E.
  - intro H. apply (updateRows_zero_iff version) in H. now rewrite E in H.
  - pose proof (updateRows_count version replaced rows) as Hc.
    rewrite E in Hc; cbn [snd] in Hc. lia.
Qed.

(** The concrete case of C2: stored version 002, [replaced] 001 and
    [version] 002a. *)
Lemma Transact_version_mismatch_witness :
  let w := worldAt (Some ["002"]) noFaults in
  let r := Transact sampleDriver addTableBody "002a" "001" w in
  fst r =
    Some (Errorf "writing version update affected %d rows, should be 1"
            [ArgInt 0])
  /\ committed (snd r) = committed w
  /\ fst (Version sampleDriver (snd r)) = ("002", None).
Proof.
  intros w r.
  destruct (Transact_version_mismatch sampleDriver addTableBody
              "002a" "001" w
              {| schema_version := Some ["002"];
                 tables := [("relation_tuple", [["row"]])] |}
              ["002"] 0
              eq_refl eq_refl eq_refl eq_refl eq_refl)
    as (H1 & _ & H3 & H4 & _).
  - discriminate.
  - split; [exact H1 |]. split; [exact H3 |].
    fold r in H4. rewrite (H4 eq_refl). reflexivity.
Defined.

(** C6, as amended: when the transaction was begun, the body succeeded
    leaving the working copy [d1], the version table in [d1] holds exactly
    one row, and the update ran and touched exactly one row, then the
    commit is sent (after the begin and a single update, with no
    rollback).  If the commit succeeds, [Transact] returns nil and the
    committed database is the body's working copy with a version table of
    exactly one row, holding [version].  If the commit fails with [ce],
    [Transact] returns [ce] and the committed database is the one from
    before the call. *)
Theorem Transact_commits_single_row (apd : CRDBDriver) (f : MigrationFunc)
  (version replaced : string) (w : World) (d1 : Database)
  (rows : list string) :
  faultAt w 0 = None ->
  f (committed w) = (None, d1) ->
  faultAt w 1 = None ->
  schema_version d1 = Some rows ->
  List.length rows = 1%nat ->
  snd (updateRows version replaced rows) = 1 ->
  let r := Transact apd f version replaced w in
  log (snd r) =
    (log w ++ [EvBegin; EvExec queryWriteVersion [version; replaced];
               EvCommit])%list
  /\ tx (snd r) = None
  /\ (faultAt w 2 = None ->
      fst r = None
      /\ committed (snd r) =
           {| schema_version := Some [version]; tables := tables d1 |})
  /\ (forall ce : error,
        faultAt w 2 = Some ce ->
        fst r = Some ce /\ committed (snd r) = committed w).
Proof.
  intros H0 Hf H1 Hrows Hlen Hupd r. unfold r.
  destruct rows as [| row [| row2 rest]]; try discriminate Hlen.
  apply updateRows_single in Hupd.
  rewrite (Transact_one_row apd f version replaced w d1 [row] [version]
             H0 Hf H1 Hrows Hupd).
  destruct (faultAt w 2) as [ce' |]; cbn [fst snd].
  - repeat split; try discriminate.
    + cbn. now rewrite <- !app_assoc.
    + now injection H as ->.
  - repeat split; try discriminate.
    cbn. now rewrite <- !app_assoc.
Qed.

(** The concrete case of C6: stored version 002, [replaced] 002 and
    [version] 003, with a body that creates a table. *)
Lemma Transact_commits_single_row_witness :
  let w := worldAt (Some ["002"]) noFaults in
  let r := Transact sampleDriver addTableBody "003" "002" w in
  fst r = None
  /\ committed (snd r) =
       {| schema_version := Some ["003"];
          tables := [("relation_tuple", [["row"]])] |}.
Proof.
  intros w r.
  destruct (Transact_commits_single_row sampleDriver addTableBody
              "003" "002" w
              {| schema_version := Some ["002"];
                 tables := [("relation_tuple", [["row"]])] |}
              ["002"]
              eq_refl eq_refl eq_refl eq_refl eq_refl eq_refl)
    as (_ & _ & H3 & _).
  exact (H3 eq_refl).
Defined.

(** C6 as stated fails when the version table holds more than one row: on
    the rows 002 and 003, replacing 002 by 003 touches exactly one row,
    the body and the commit succeed and [Transact] returns nil, yet the
    committed version table holds two rows, both with value 003: it does
    not consist of one row, and the rows with value 003 are not one. *)
Lemma Transact_one_row_affected_counterexample :
  let w := worldAt (Some ["002"; "003"]) noFaults in
  let r := Transact sampleDriver addTableBody "003" "002" w in
  faultAt w 0 = None
  /\ addTableBody (committed w) =
       (None, {| schema_version := Some ["002"; "003"];
                 tables := [("relation_tuple", [["row"]])] |})
  /\ faultAt w 1 = None
  /\ snd (updateRows "003" "002" ["002"; "003"]) = 1
  /\ faultAt w 2 = None
  /\ fst r = None
  /\ schema_version (committed (snd r)) = Some ["003"; "003"]
  /\ schema_version (committed (snd r)) <> Some ["003"]
  /\ count_occ string_dec ["003"; "003"] "003" <> 1%nat.
Proof.
  cbv zeta. repeat split; try reflexivity.
  - vm_compute. discriminate.
  - vm_compute. discriminate.
Qed.

(** ** [writeVersion] *)

(** C9: in every world, [writeVersion] returns nil, or the failure of
    [Exec] wrapped as "unable to update version row", or the error saying
    that the number of rows affected, [n], is not 1; it never returns an
    error wrapped as "unable to compute number of rows affected". *)
Theorem writeVersion_results (t : Tx) (version replaced : string)
  (w : World) :
  let exec := fst (Exec t queryWriteVersion [version; replaced] w) in
  let r := fst (writeVersion t version replaced w) in
  (r = None
   \/ (exists e : error,
         snd exec = Some e
         /\ r = Some (Wrapf "unable to update version row: %w" e))
   \/ (exists n : Z,
         n <> 1 /\ snd exec = None /\ RowsAffected (fst exec) = n
         /\ r = Some (Errorf
                        "writing version update affected %d rows, should be 1"
                        [ArgInt n])))
  /\ forall e : error,
       r <> Some (Wrapf "unable to compute number of rows affected: %w" e).
Proof.
  intros exec r. unfold r, exec, writeVersion, bind.
  destruct (Exec t queryWriteVersion [version; replaced] w)
    as [[result err] w'].
  cbn [fst snd]. destruct err as [e |].
  - split; [| intros e' H; discriminate H].
    right; left. now exists e.
  - destruct (Z.eqb (RowsAffected result) 1) eqn:E; cbn [negb fst].
    + split; [now left | discriminate].
    + split; [| intros e' H; discriminate H].
      right; right. exists (RowsAffected result).
      apply Z.eqb_neq in E. now repeat split.
Qed.

(** ** [Version] *)

(** C5: [Version] maps the outcome [(loaded, err)] of its one read to
    exactly one of three results.  If [err] is an error on whose unwrap
    chain [errors.As] finds a [PgError] with code 42P01, the result is the
    empty string and a nil error.  If [err] is any other error [e], the
    result is the empty string and [e] wrapped as "unable to load alembic
    revision".  If [err] is nil, the result is [loaded] and a nil
    error. *)
Theorem Version_three_outcomes (apd : CRDBDriver) (w : World)
  (loaded : string) (err : option error) :
  fst (QueryRowScan (db apd) queryLoadVersion w) = (loaded, err) ->
  (forall (e : error) (msg : string),
      err = Some e ->
      errors_As_PgError e = Some ("42P01", msg) ->
      fst (Version apd w) = ("", None))
  /\ (forall e : error,
        err = Some e ->
        (forall msg : string, errors_As_PgError e <> Some ("42P01", msg)) ->
        fst (Version apd w) =
          ("", Some (Wrapf "unable to load alembic revision: %w" e)))
  /\ (err = None -> fst (Version apd w) = (loaded, None)).
Proof.
  intro Hread. unfold Version, bind.
  destruct (QueryRowScan (db apd) queryLoadVersion w) as [[l' e'] w'].
  cbn [fst] in Hread. injection Hread as -> ->.
  repeat split.
  - intros e msg -> Has. now rewrite Has.
  - intros e -> Hnot.
    destruct (errors_As_PgError e) as [[code msg] |] eqn:Has; [| reflexivity].
    destruct (String.eqb code postgresMissingTableErrorCode) eqn:Hcode;
      [| reflexivity].
    apply String.eqb_eq in Hcode. subst code. now elim (Hnot msg).
  - now intros ->.
Qed.

(** On a backend where the version table does not exist yet, [Version]
    returns the empty string and a nil error; a lost connection is
    reported wrapped; a stored row is returned. *)
Lemma Version_three_outcomes_witness :
  fst (Version sampleDriver (worldAt None noFaults)) = ("", None)
  /\ fst (Version sampleDriver
            (worldAt (Some ["002"]) (failAt 0 (External "connection lost"))))
     = ("", Some (Wrapf "unable to load alembic revision: %w"
                    (External "connection lost")))
  /\ fst (Version sampleDriver (worldAt (Some ["002"]) noFaults))
     = ("002", None).
Proof.
  split; [| split].
  - apply (proj1 (Version_three_outcomes sampleDriver (worldAt None noFaults)
                    "" (Some missingTable) eq_refl)
             missingTable "relation schema_version does not exist");
      reflexivity.
  - apply (proj1 (proj2 (Version_three_outcomes sampleDriver
                           (worldAt (Some ["002"])
                              (failAt 0 (External "connection lost")))
                           "" (Some (External "connection lost")) eq_refl)));
      [reflexivity | discriminate].
  - apply (proj2 (proj2 (Version_three_outcomes sampleDriver
                           (worldAt (Some ["002"]) noFaults)
                           "002" None eq_refl))).
    reflexivity.
Defined.

(** ** [NewCRDBDriver] *)

(** C7: [NewCRDBDriver] makes one attempt.  If the connection string does
    not parse, the parse error comes back wrapped as "unable to
    instantiate CRDBDriver" and the backend is not contacted.  If it
    parses, exactly one connection attempt is sent, with the parsed
    configuration and the logger attached: if it fails, its error comes
    back wrapped in the same way and no connection is held; if it
    succeeds, the driver returned holds the connection that this attempt
    established, which is the one connection added. *)
Theorem NewCRDBDriver_single_attempt
  (ParseConfig : string -> result ConnConfig) (url : string) (w : World) :
  let r := NewCRDBDriver ParseConfig url w in
  (forall e : error,
      ParseConfig url = Err e ->
      fst r = (None, Some (Wrapf errUnableToInstantiate e)) /\ snd r = w)
  /\ (forall cfg : ConnConfig,
        ParseConfig url = Ok cfg ->
        let cfg' :=
          {| ConnString := ConnString cfg; Logger := Some zerologLogger |} in
        log (snd r) = (log w ++ [EvConnect cfg'])%list
        /\ (forall e : error,
              faultAt w 0 = Some e ->
              fst r = (None, Some (Wrapf errUnableToInstantiate e))
              /\ live (snd r) = live w)
        /\ (faultAt w 0 = None ->
            fst r = (Some {| db := {| Config := cfg' |} |}, None)
            /\ live (snd r) = S (live w))).
Proof.
  intro r. subst r. unfold NewCRDBDriver. split.
  - intros e He. rewrite He. split; reflexivity.
  - intros cfg Hcfg. rewrite Hcfg. unfold bind, ConnectConfig.
    rewrite nextFault_faultAt.
    destruct (faultAt w 0) as [e' |]; cbn [fst snd].
    + split; [reflexivity |]. split.
      * intros e He. injection He as ->. split; reflexivity.
      * discriminate.
    + split; [reflexivity |]. split.
      * discriminate.
      * intros _. split; reflexivity.
Qed.

Lemma NewCRDBDriver_single_attempt_witness :
  let url := "postgres://root@localhost:26257/spicedb" in
  let cfg := {| ConnString := url; Logger := Some zerologLogger |} in
  fst (NewCRDBDriver sampleParse "not a url" (unconnected noFaults))
    = (None,
       Some (Wrapf errUnableToInstantiate
               (External "cannot parse connection string")))
  /\ fst (NewCRDBDriver sampleParse url
            (unconnected (failAt 0 (External "connection refused"))))
     = (None,
        Some (Wrapf errUnableToInstantiate (External "connection refused")))
  /\ fst (NewCRDBDriver sampleParse url (unconnected noFaults))
     = (Some {| db := {| Config := cfg |} |}, None)
  /\ live (snd (NewCRDBDriver sampleParse url (unconnected noFaults))) = 1%nat.
Proof.
  intros url cfg.
  split; [| split].
  - apply (proj1 (NewCRDBDriver_single_attempt sampleParse "not a url"
                    (unconnected noFaults))).
    reflexivity.
  - apply (proj2 (NewCRDBDriver_single_attempt sampleParse url
                    (unconnected (failAt 0 (External "connection refused"))))
             {| ConnString := url; Logger := None |} eq_refl).
    reflexivity.
  - apply (proj2 (NewCRDBDriver_single_attempt sampleParse url
                    (unconnected noFaults))
             {| ConnString := url; Logger := None |} eq_refl).
    reflexivity.
Defined.

End migrations_facts.

(** * The registration surface *)

Module mysql_facts.

Import mysql samples.

(** C8: whatever else the supported identifier grammar accepts, as long
    as it refuses identifiers that start with a decimal digit,
    registering a migration under such a version identifier returns an
    error and leaves the registry as it was.  Registration is a function
    of the identifier and the registry alone: no driver, transaction or
    backend state takes part in it. *)
Theorem registerMigration_rejects_numeric_prefix
  (supported : string -> bool) (v r : string) (registry : list migration) :
  (forall id : string, numericPrefix id = true -> supported id = false) ->
  numericPrefix v = true ->
  fst (registerMigration supported v r registry) <> None
  /\ snd (registerMigration supported v r registry) = registry.
Proof.
  intros Hgrammar Hv. unfold registerMigration.
  rewrite (Hgrammar v Hv). split; [discriminate | reflexivity].
Qed.

(** The case exercised by the test: version 888, replacing nothing. *)
Lemma registerMigration_rejects_numeric_prefix_witness :
  numericPrefix "888" = true
  /\ fst (registerMigration noNumericPrefix "888" "" []) <> None
  /\ snd (registerMigration noNumericPrefix "888" "" []) = [].
Proof.
  split; [reflexivity |].
  apply (registerMigration_rejects_numeric_prefix noNumericPrefix "888" "" []).
  - intros id H. unfold noNumericPrefix. now rewrite H.
  - reflexivity.
Defined.

End mysql_facts.

(** * Further properties of the configuration builder *)

Module crdb_more_facts.

Import crdb vocabulary crdb_facts.

Lemma generateConfig_snd_None (options : list CRDBOption) :
  snd (generateConfig options) = None <->
  revisionQuantization (applyOptions options initialOptions)
    < gcWindow (applyOptions options initialOptions).
Proof.
  unfold generateConfig.
  destruct (_ >=? _) eqn:E; cbn [snd].
  - apply Z.geb_le in E. split; [discriminate | lia].
  - rewrite Z.geb_leb in E. apply Z.leb_gt in E. split; [intros _; lia | reflexivity].
Qed.

Lemma lastApplied_none {A : Type} (sel : OptionCall -> option A)
  (calls : list OptionCall) :
  (forall c, In c calls -> sel c = None) -> lastApplied sel calls = None.
Proof.
  induction calls as [| c rest IH]; intro H; [reflexivity |].
  cbn [lastApplied]. rewrite IH by (intros; apply H; now right).
  apply H. now left.
Qed.

Lemma lastApplied_app {A : Type} (sel : OptionCall -> option A)
  (a b : list OptionCall) :
  lastApplied sel (a ++ b) =
    match lastApplied sel b with
    | Some v => Some v
    | None => lastApplied sel a
    end.
Proof.
  induction a as [| c rest IH]; cbn [app lastApplied].
  - now destruct (lastApplied sel b).
  - rewrite IH. now destruct (lastApplied sel b).
Qed.

Lemma lastApplied_permutation {A : Type} (sel : OptionCall -> option A)
  (k : Field) (calls calls' : list OptionCall) :
  selectsField sel k ->
  Permutation calls calls' ->
  NoDup (map fieldOf calls) ->
  lastApplied sel calls = lastApplied sel calls'.
Proof.
  intros Hsel Hperm. induction Hperm as [| x l l' _ IH | x y l | l l' l'' P1 IH1 P2 IH2];
    intro Hnd.
  - reflexivity.
  - cbn [lastApplied]. rewrite IH; [reflexivity |].
    cbn [map] in Hnd. now inversion Hnd.
  - cbn [lastApplied]. destruct (lastApplied sel l); [reflexivity |].
    destruct (sel x) as [vx |] eqn:Ex, (sel y) as [vy |] eqn:Ey;
      try reflexivity.
    exfalso. cbn [map] in Hnd. inversion Hnd as [| ? ? Hnotin _]; subst.
    apply Hnotin. left.
    transitivity k; [| symmetry]; apply Hsel; congruence.
  - rewrite IH1 by exact Hnd. apply IH2.
    eapply Permutation_NoDup; [| exact Hnd].
    now apply Permutation_map.
Qed.

Lemma lastApplied_in {A : Type} (sel : OptionCall -> option A)
  (calls : list OptionCall) (c : OptionCall) :
  In c calls -> sel c <> None -> lastApplied sel calls <> None.
Proof.
  induction calls as [| x rest IH]; intros Hin Hc; [contradiction |].
  cbn [lastApplied]. destruct (lastApplied sel rest) eqn:E; [discriminate |].
  destruct Hin as [-> | Hin]; [exact Hc |].
  now elim (IH Hin Hc).
Qed.

(** A call has no effect on a field when a later call of the same field
    follows it. *)
Lemma lastApplied_shadowed {A : Type} (sel : OptionCall -> option A)
  (k : Field) (a b : list OptionCall) (c c' : OptionCall) :
  selectsField sel k ->
  In c' b -> fieldOf c' = fieldOf c ->
  lastApplied sel (a ++ c :: b) = lastApplied sel (a ++ b).
Proof.
  intros Hsel Hin Hf. rewrite !lastApplied_app. cbn [lastApplied].
  destruct (lastApplied sel b) eqn:E; [reflexivity |].
  destruct (sel c) eqn:Ec; [| reflexivity].
  exfalso. apply (lastApplied_in sel b c' Hin); [| exact E].
  apply Hsel. rewrite Hf. apply Hsel. congruence.
Qed.

Ltac selects := intros []; cbn; split; congruence.

Lemma selects_connMaxIdleTime : selectsField selConnMaxIdleTime FConnMaxIdleTime.
Proof. selects. Qed.
Lemma selects_connMaxLifetime : selectsField selConnMaxLifetime FConnMaxLifetime.
Proof. selects. Qed.
Lemma selects_minOpenConns : selectsField selMinOpenConns FMinOpenConns.
Proof. selects. Qed.
Lemma selects_maxOpenConns : selectsField selMaxOpenConns FMaxOpenConns.
Proof. selects. Qed.
Lemma selects_watchBufferLength :
  selectsField selWatchBufferLength FWatchBufferLength.
Proof. selects. Qed.
Lemma selects_revisionQuantization :
  selectsField selRevisionQuantization FRevisionQuantization.
Proof. selects. Qed.
Lemma selects_gcWindow : selectsField selGCWindow FGCWindow.
Proof. selects. Qed.

(** Two call sequences that agree, field by field, on the last value
    written produce the same record from the same start. *)
Lemma lastWriteWins_ext (calls calls' : list OptionCall) (start : crdbOptions) :
  lastApplied selConnMaxIdleTime calls = lastApplied selConnMaxIdleTime calls' ->
  lastApplied selConnMaxLifetime calls = lastApplied selConnMaxLifetime calls' ->
  lastApplied selMinOpenConns calls = lastApplied selMinOpenConns calls' ->
  lastApplied selMaxOpenConns calls = lastApplied selMaxOpenConns calls' ->
  lastApplied selWatchBufferLength calls
    = lastApplied selWatchBufferLength calls' ->
  lastApplied selRevisionQuantization calls
    = lastApplied selRevisionQuantization calls' ->
  lastApplied selGCWindow calls = lastApplied selGCWindow calls' ->
  lastWriteWins calls start = lastWriteWins calls' start.
Proof.
  intros H1 H2 H3 H4 H5 H6 H7. unfold lastWriteWins.
  now rewrite H1, H2, H3, H4, H5, H6, H7.
Qed.

(** [generateConfig] is a function of the record the loop leaves. *)
Lemma generateConfig_same_computed (o o' : list CRDBOption) :
  applyOptions o initialOptions = applyOptions o' initialOptions ->
  generateConfig o = generateConfig o'.
Proof. intro H. unfold generateConfig. now rewrite H. Qed.

Lemma applyOptions_app (a b : list CRDBOption) (start : crdbOptions) :
  applyOptions (a ++ b) start = applyOptions b (applyOptions a start).
Proof. unfold applyOptions. apply fold_left_app. Qed.

(** X1: for calls to the exported setters, whether [generateConfig]
    returns an error is decided by the last [RevisionQuantization] call
    and the last [GCWindow] call alone: the error is nil exactly when the
    last quantization (5s if there is none) is strictly below the last GC
    window (24h if there is none). *)
Theorem generateConfig_decided_by_last_timing_calls
  (calls : list OptionCall) :
  snd (generateConfig (map setter calls)) = None <->
  orDefault (5 * 1000000000) (lastApplied selRevisionQuantization calls)
    < orDefault (24 * (3600 * 1000000000)) (lastApplied selGCWindow calls).
Proof.
  rewrite generateConfig_snd_None, applyOptions_lastWriteWins.
  reflexivity.
Qed.

(** X2: a sequence without [RevisionQuantization] and [GCWindow] calls
    is never rejected, whatever values it gives the pool bounds, the
    timeouts and the watch buffer length (negative, zero, minimum above
    maximum): no other field is validated.  The two durations keep their
    defaults. *)
Theorem generateConfig_accepts_without_timing_calls
  (calls : list OptionCall) :
  (forall c, In c calls -> timingCall c = false) ->
  snd (generateConfig (map setter calls)) = None
  /\ revisionQuantization (fst (generateConfig (map setter calls)))
     = 5 * 1000000000
  /\ gcWindow (fst (generateConfig (map setter calls)))
     = 24 * (3600 * 1000000000).
Proof.
  intro H.
  assert (Hq : lastApplied selRevisionQuantization calls = None).
  { apply lastApplied_none. intros c Hc. specialize (H c Hc).
    now destruct c. }
  assert (Hg : lastApplied selGCWindow calls = None).
  { apply lastApplied_none. intros c Hc. specialize (H c Hc).
    now destruct c. }
  split; [| split].
  - apply generateConfig_snd_None.
    rewrite applyOptions_lastWriteWins; cbn. now rewrite Hq, Hg.
  - rewrite generateConfig_fst, applyOptions_lastWriteWins; cbn.
    now rewrite Hq.
  - rewrite generateConfig_fst, applyOptions_lastWriteWins; cbn.
    now rewrite Hg.
Qed.

Lemma generateConfig_accepts_without_timing_calls_witness :
  snd (generateConfig (map setter poolCalls)) = None
  /\ minOpenConns (fst (generateConfig (map setter poolCalls))) = Some (-4)
  /\ maxOpenConns (fst (generateConfig (map setter poolCalls))) = Some (-9).
Proof.
  split; [| split; reflexivity].
  apply (generateConfig_accepts_without_timing_calls poolCalls).
  intros c Hc. cbn in Hc.
  repeat (destruct Hc as [<- | Hc]; [reflexivity |]). contradiction.
Defined.

(** X3: when no field is set twice, the order of the options does not
    matter: any rearrangement of the calls gives the same configuration
    and the same error. *)
Theorem generateConfig_order_independent (calls calls' : list OptionCall) :
  Permutation calls calls' ->
  NoDup (map fieldOf calls) ->
  generateConfig (map setter calls) = generateConfig (map setter calls').
Proof.
  intros Hperm Hnd. apply generateConfig_same_computed.
  rewrite !applyOptions_lastWriteWins.
  apply lastWriteWins_ext;
    eapply lastApplied_permutation;
    eauto using selects_connMaxIdleTime, selects_connMaxLifetime,
      selects_minOpenConns, selects_maxOpenConns, selects_watchBufferLength,
      selects_revisionQuantization, selects_gcWindow.
Qed.

Lemma generateConfig_order_independent_witness :
  generateConfig (map setter shuffledA) = generateConfig (map setter shuffledB).
Proof.
  apply (generateConfig_order_independent shuffledA shuffledB).
  - unfold shuffledA, shuffledB.
    eapply perm_trans; [apply perm_swap |]. eapply perm_trans; [apply perm_skip, perm_swap |].
    eapply perm_trans; [apply perm_swap |]. apply perm_skip, perm_swap.
  - cbn. repeat constructor; cbn; intuition discriminate.
Defined.

(** X4: options appended to a sequence act as overrides on what the
    sequence computes: the configuration for [base ++ overrides] is the
    configuration for [base] with, field by field, the last value
    [overrides] writes. *)
Theorem generateConfig_append_overrides (base overrides : list OptionCall) :
  fst (generateConfig (map setter (base ++ overrides))) =
    lastWriteWins overrides (fst (generateConfig (map setter base))).
Proof.
  rewrite !generateConfig_fst, map_app, applyOptions_app.
  apply applyOptions_lastWriteWins.
Qed.

(** X5: a call that is followed, anywhere later in the sequence, by a
    call to the same setter has no effect at all: removing it changes
    neither the configuration nor the error. *)
Theorem generateConfig_shadowed_call_is_dead
  (a b : list OptionCall) (c c' : OptionCall) :
  In c' b ->
  fieldOf c' = fieldOf c ->
  generateConfig (map setter (a ++ c :: b))
    = generateConfig (map setter (a ++ b)).
Proof.
  intros Hin Hf. apply generateConfig_same_computed.
  rewrite !applyOptions_lastWriteWins.
  apply lastWriteWins_ext;
    eapply lastApplied_shadowed;
    eauto using selects_connMaxIdleTime, selects_connMaxLifetime,
      selects_minOpenConns, selects_maxOpenConns, selects_watchBufferLength,
      selects_revisionQuantization, selects_gcWindow.
Qed.

(** A GC window that would be rejected is harmless once a later call
    replaces it. *)
Lemma generateConfig_shadowed_call_is_dead_witness :
  generateConfig
    (map setter ([CallMaxOpenConns 10] ++ CallGCWindow 0
                   :: [CallMinOpenConns 1; CallGCWindow Hour]))
  = generateConfig
      (map setter ([CallMaxOpenConns 10]
                     ++ [CallMinOpenConns 1; CallGCWindow Hour])).
Proof.
  apply (generateConfig_shadowed_call_is_dead [CallMaxOpenConns 10]
           [CallMinOpenConns 1; CallGCWindow Hour]
           (CallGCWindow 0) (CallGCWindow Hour)).
  - right. now left.
  - reflexivity.
Defined.

End crdb_more_facts.

(** * Further properties of the migration driver *)

Module migrations_more_facts.

Import pgx migrate migrations samples vocabulary migrations_facts.

Lemma writeVersion_fails (t : Tx) (version replaced : string) (w : World)
  (d : Database) (e : error) :
  tx w = Some d ->
  updateFailure (faultAt w 0) d = Some e ->
  writeVersion t version replaced w =
    (Some (Wrapf "unable to update version row: %w" e),
     received (EvExec queryWriteVersion [version; replaced]) w).
Proof.
  intros Htx Hfail. unfold writeVersion, bind, Exec.
  rewrite Htx, nextFault_faultAt. unfold updateFailure in Hfail.
  destruct (faultAt w 0) as [e0 |].
  - now injection Hfail as ->.
  - unfold runExec, queryWriteVersion, writeVersionSQL.
    rewrite String.eqb_refl.
    destruct (schema_version d); [discriminate |].
    now injection Hfail as <-.
Qed.

(** The body succeeded and the update failed. *)
Lemma Transact_update_fails (apd : CRDBDriver) (f : MigrationFunc)
  (version replaced : string) (w : World) (d1 : Database) (e : error) :
  faultAt w 0 = None ->
  f (committed w) = (None, d1) ->
  updateFailure (faultAt w 1) d1 = Some e ->
  Transact apd f version replaced w =
    (Some (Wrapf "unable to update version row: %w" e),
     setTx None
       (received EvRollback
          (received (EvExec queryWriteVersion [version; replaced])
             (setTx (Some d1) (begun w))))).
Proof.
  intros H0 Hf Hfail.
  rewrite (Transact_body_succeeds apd f version replaced w d1 H0 Hf).
  unfold defer, bind.
  rewrite (writeVersion_fails _ version replaced _ d1 e).
  - reflexivity.
  - reflexivity.
  - unfold begun.
    now repeat (rewrite faultAt_setTx || rewrite faultAt_received).
Qed.

(** Every run of [Transact] is one of five. *)
Lemma Transact_cases (apd : CRDBDriver) (f : MigrationFunc)
  (version replaced : string) (w : World) :
  let r := Transact apd f version replaced w in
  let update := EvExec queryWriteVersion [version; replaced] in
  (exists e, faultAt w 0 = Some e /\ r = (Some e, received EvBegin w))
  \/ (exists e d1,
        faultAt w 0 = None /\ f (committed w) = (Some e, d1)
        /\ r = (Some e,
                setTx None (received EvRollback (setTx (Some d1) (begun w)))))
  \/ (exists d1 e,
        faultAt w 0 = None /\ f (committed w) = (None, d1)
        /\ updateFailure (faultAt w 1) d1 = Some e
        /\ r = (Some (Wrapf "unable to update version row: %w" e),
                setTx None
                  (received EvRollback
                     (received update (setTx (Some d1) (begun w))))))
  \/ (exists d1 rows rows' n,
        faultAt w 0 = None /\ f (committed w) = (None, d1)
        /\ faultAt w 1 = None /\ schema_version d1 = Some rows
        /\ updateRows version replaced rows = (rows', n) /\ n <> 1
        /\ r = (Some (Errorf
                        "writing version update affected %d rows, should be 1"
                        [ArgInt n]),
                setTx None
                  (received EvRollback
                     (setTx (Some {| schema_version := Some rows';
                                     tables := tables d1 |})
                        (received update (setTx (Some d1) (begun w)))))))
  \/ (exists d1 rows rows',
        faultAt w 0 = None /\ f (committed w) = (None, d1)
        /\ faultAt w 1 = None /\ schema_version d1 = Some rows
        /\ updateRows version replaced rows = (rows', 1)
        /\ let d2 := {| schema_version := Some rows'; tables := tables d1 |} in
           let w3 :=
             setTx None
               (received EvCommit
                  (setTx (Some d2)
                     (received update (setTx (Some d1) (begun w))))) in
           r = match faultAt w 2 with
               | Some ce => (Some ce, w3)
               | None => (None, setCommitted d2 w3)
               end).
Proof.
  intros r update. subst r update.
  destruct (faultAt w 0) as [e0 |] eqn:H0.
  { left. exists e0. split; [reflexivity |].
    now apply Transact_begin_fails. }
  right.
  destruct (f (committed w)) as [[e |] d1] eqn:Hf.
  { left. exists e, d1. repeat split; try assumption.
    now apply Transact_body_fails. }
  right.
  destruct (updateFailure (faultAt w 1) d1) as [e |] eqn:Hfail.
  { left. exists d1, e. repeat split; try assumption.
    now apply Transact_update_fails. }
  right. unfold updateFailure in Hfail.
  destruct (faultAt w 1) eqn:H1; [discriminate |].
  destruct (schema_version d1) as [rows |] eqn:Hrows; [| discriminate].
  destruct (updateRows version replaced rows) as [rows' n] eqn:Hupd.
  destruct (Z.eq_dec n 1) as [-> | Hn].
  - right. exists d1, rows, rows'. repeat split; try assumption.
    cbv zeta. now apply (Transact_one_row apd f version replaced w d1 rows).
  - left. exists d1, rows, rows', n. repeat split; try assumption.
    now apply (Transact_not_one_row apd f version replaced w d1 rows).
Qed.

(** ** All-or-nothing *)

(** X6: whenever [Transact] returns an error, whichever step produced it
    (begin, body, update, row count or commit) and whatever the rollback
    did, the committed database is the one from before the call. *)
Theorem Transact_error_keeps_committed (apd : CRDBDriver)
  (f : MigrationFunc) (version replaced : string) (w : World) :
  fst (Transact apd f version replaced w) <> None ->
  committed (snd (Transact apd f version replaced w)) = committed w.
Proof.
  intro Herr.
  destruct (Transact_cases apd f version replaced w)
    as [(e & _ & E) | [(e & d1 & _ & _ & E) | [(d1 & e & _ & _ & _ & E)
       | [(d1 & rows & rows' & n & _ & _ & _ & _ & _ & _ & E)
       | (d1 & rows & rows' & _ & _ & _ & _ & _ & E)]]]];
    cbv zeta in E; rewrite E in Herr |- *; try reflexivity.
  destruct (faultAt w 2); [reflexivity |]. now elim Herr.
Qed.

(** The commit is lost after the body and the update went through. *)
Lemma Transact_error_keeps_committed_witness :
  let w := worldAt (Some ["002"]) (failAt 2 (External "commit lost")) in
  fst (Transact sampleDriver addTableBody "003" "002" w)
    = Some (External "commit lost")
  /\ committed (snd (Transact sampleDriver addTableBody "003" "002" w))
     = committed w.
Proof.
  intro w. split; [reflexivity |].
  apply (Transact_error_keeps_committed sampleDriver addTableBody
           "003" "002" w).
  discriminate.
Defined.

(** X7: [Transact] returns nil only when the body returned nil, the
    update ran on a version table of which it touched exactly one row,
    and the commit succeeded; the committed database is then the body's
    working copy with that row rewritten, and the transaction is
    closed. *)
Theorem Transact_nil_means_committed (apd : CRDBDriver)
  (f : MigrationFunc) (version replaced : string) (w : World) :
  fst (Transact apd f version replaced w) = None ->
  exists (d1 : Database) (rows rows' : list string),
    f (committed w) = (None, d1)
    /\ schema_version d1 = Some rows
    /\ updateRows version replaced rows = (rows', 1)
    /\ committed (snd (Transact apd f version replaced w))
       = {| schema_version := Some rows'; tables := tables d1 |}
    /\ tx (snd (Transact apd f version replaced w)) = None
    /\ last (log (snd (Transact apd f version replaced w))) EvBegin
       = EvCommit.
Proof.
  intro Hnil.
  destruct (Transact_cases apd f version replaced w)
    as [(e & _ & E) | [(e & d1 & _ & _ & E) | [(d1 & e & _ & _ & _ & E)
       | [(d1 & rows & rows' & n & _ & _ & _ & _ & _ & _ & E)
       | (d1 & rows & rows' & _ & Hf & _ & Hrows & Hupd & E)]]]];
    cbv zeta in E; rewrite E in Hnil; try discriminate Hnil.
  exists d1, rows, rows'. rewrite E.
  destruct (faultAt w 2); [discriminate Hnil |].
  repeat split; try assumption.
  cbn [snd log setCommitted setTx received]. apply last_last.
Qed.

Lemma Transact_nil_means_committed_witness :
  let w := worldAt (Some ["002"]) noFaults in
  exists (d1 : Database) (rows rows' : list string),
    addTableBody (committed w) = (None, d1)
    /\ schema_version d1 = Some rows
    /\ updateRows "003" "002" rows = (rows', 1)
    /\ committed (snd (Transact sampleDriver addTableBody "003" "002" w))
       = {| schema_version := Some rows'; tables := tables d1 |}
    /\ tx (snd (Transact sampleDriver addTableBody "003" "002" w)) = None
    /\ last (log (snd (Transact sampleDriver addTableBody "003" "002" w)))
         EvBegin
       = EvCommit.
Proof.
  intro w.
  apply (Transact_nil_means_committed sampleDriver addTableBody
           "003" "002" w).
  reflexivity.
Defined.

(** X8: the calls one run of [Transact] sends are, in order, one of:
    begin; begin, rollback; begin, update, rollback; begin, update,
    commit.  So a run sends at most one update, never reads, never sends
    both a commit and a rollback, and sends no rollback when the begin
    failed. *)
Theorem Transact_protocol (apd : CRDBDriver) (f : MigrationFunc)
  (version replaced : string) (w : World) :
  exists sent : list Event,
    log (snd (Transact apd f version replaced w)) = (log w ++ sent)%list
    /\ In sent (transactTraces version replaced).
Proof.
  unfold transactTraces.
  destruct (Transact_cases apd f version replaced w)
    as [(e & _ & E) | [(e & d1 & _ & _ & E) | [(d1 & e & _ & _ & _ & E)
       | [(d1 & rows & rows' & n & _ & _ & _ & _ & _ & _ & E)
       | (d1 & rows & rows' & _ & _ & _ & _ & _ & E)]]]];
    cbv zeta in E; rewrite E.
  - exists [EvBegin]. split; [reflexivity | now left].
  - exists [EvBegin; EvRollback]. split.
    + cbn. now rewrite <- app_assoc.
    + right. now left.
  - eexists. split.
    + cbn. rewrite <- !app_assoc. reflexivity.
    + right. right. now left.
  - eexists. split.
    + cbn. rewrite <- !app_assoc. reflexivity.
    + right. right. now left.
  - eexists. split.
    + destruct (faultAt w 2); cbn; rewrite <- !app_assoc; reflexivity.
    + right. right. right. now left.
Qed.

(** ** The error paths *)

(** X9: when the begin fails, its error is returned as it is, without
    wrapping; the begin is the only call sent (the rollback is not yet
    deferred), and neither the committed database nor the transaction
    state of the connection is touched. *)
Theorem Transact_begin_failure (apd : CRDBDriver) (f : MigrationFunc)
  (version replaced : string) (w : World) (e : error) :
  faultAt w 0 = Some e ->
  let r := Transact apd f version replaced w in
  fst r = Some e
  /\ log (snd r) = (log w ++ [EvBegin])%list
  /\ committed (snd r) = committed w
  /\ tx (snd r) = tx w.
Proof.
  intros H r. subst r.
  rewrite (Transact_begin_fails apd f version replaced w e H).
  repeat split.
Qed.

Lemma Transact_begin_failure_witness :
  let w := worldAt (Some ["002"]) (failAt 0 (External "connection lost")) in
  let r := Transact sampleDriver failingBody "003" "002" w in
  fst r = Some (External "connection lost")
  /\ log (snd r) = [EvBegin]
  /\ committed (snd r) = committed w
  /\ tx (snd r) = tx w.
Proof.
  intro w.
  apply (Transact_begin_failure sampleDriver failingBody "003" "002" w
           (External "connection lost")).
  reflexivity.
Defined.

(** X10: when the body succeeded and the update statement itself fails
    with [e] (a fault on the call, or the version table missing from the
    working copy), [Transact] returns [e] wrapped as "unable to update
    version row"; a [PgError] in [e] stays visible to [errors.As]
    through the wrapping; update and rollback are sent and no commit.
    Without a fault, the cause is the missing table and [errors.As]
    finds code 42P01. *)
Theorem Transact_update_failure (apd : CRDBDriver) (f : MigrationFunc)
  (version replaced : string) (w : World) (d1 : Database) (e : error) :
  faultAt w 0 = None ->
  f (committed w) = (None, d1) ->
  updateFailure (faultAt w 1) d1 = Some e ->
  let r := Transact apd f version replaced w in
  let err := Wrapf "unable to update version row: %w" e in
  fst r = Some err
  /\ errors_As_PgError err = errors_As_PgError e
  /\ log (snd r) =
       (log w ++ [EvBegin; EvExec queryWriteVersion [version; replaced];
                  EvRollback])%list
  /\ (faultAt w 1 = None ->
      schema_version d1 = None
      /\ exists msg, errors_As_PgError err = Some ("42P01", msg)).
Proof.
  intros H0 Hf Hfail r err. subst r err.
  rewrite (Transact_update_fails apd f version replaced w d1 e H0 Hf Hfail).
  split; [reflexivity |]. split; [reflexivity |]. split.
  - cbn. now rewrite <- !app_assoc.
  - intro H1. unfold updateFailure in Hfail. rewrite H1 in Hfail.
    destruct (schema_version d1); [discriminate |].
    injection Hfail as <-. split; [reflexivity |]. now eexists.
Qed.

(** A database without version table and a body that does not create
    it. *)
Lemma Transact_update_failure_witness :
  let w := worldAt None noFaults in
  let r := Transact sampleDriver idleBody "001" "" w in
  fst r = Some (Wrapf "unable to update version row: %w" missingTable)
  /\ log (snd r) = [EvBegin; EvExec queryWriteVersion ["001"; ""]; EvRollback].
Proof.
  intro w.
  destruct (Transact_update_failure sampleDriver idleBody "001" "" w
              (committed w) missingTable eq_refl eq_refl eq_refl)
    as (H1 & _ & H3 & _).
  split; [exact H1 | exact H3].
Defined.

(** ** Reading back what was written *)

Lemma Version_reads_first_row (apd : CRDBDriver) (w : World)
  (row : string) (rest : list string) :
  faultAt w 0 = None ->
  schema_version (committed w) = Some (row :: rest) ->
  fst (Version apd w) = (row, None).
Proof.
  intros H0 Hrows. unfold Version, bind, QueryRowScan.
  rewrite nextFault_faultAt, H0.
  unfold runQueryRow, queryLoadVersion, loadVersionSQL.
  now rewrite String.eqb_refl, Hrows.
Qed.

Lemma updateRows_hit (v r : string) :
  updateRows v r [r] = ([v], 1).
Proof. cbn. now rewrite String.eqb_refl. Qed.

Lemma updateRows_miss (v r row : string) :
  row <> r -> updateRows v r [row] = ([row], 0).
Proof. intro H. cbn. apply String.eqb_neq in H. now rewrite H. Qed.

(** The world after a run that went through on a version table whose one
    row held [replaced]. *)
Lemma Transact_single_row_world (apd : CRDBDriver) (f : MigrationFunc)
  (version replaced : string) (w : World) (d1 : Database) :
  faultAt w 0 = None ->
  f (committed w) = (None, d1) ->
  faultAt w 1 = None ->
  schema_version d1 = Some [replaced] ->
  faultAt w 2 = None ->
  let r := Transact apd f version replaced w in
  fst r = None
  /\ committed (snd r) =
       {| schema_version := Some [version]; tables := tables d1 |}
  /\ forall k, faultAt (snd r) k = faultAt w (3 + k).
Proof.
  intros H0 Hf H1 Hrows H2 r. subst r.
  rewrite (Transact_one_row apd f version replaced w d1 [replaced] [version]
             H0 Hf H1 Hrows (updateRows_hit version replaced)).
  rewrite H2. cbn [fst snd]. split; [reflexivity |]. split; [reflexivity |].
  intro k. unfold begun. rewrite faultAt_setCommitted.
  now repeat (rewrite faultAt_setTx || rewrite faultAt_received).
Qed.

(** X11: write, then read.  After a run of [Transact] that went through
    on a version table whose single row held [replaced] (begin, body,
    update and commit undisturbed), an undisturbed [Version] returns
    [version] and a nil error.  This includes the first migration of a
    fresh database, whose body creates the version table. *)
Theorem Transact_then_Version (apd : CRDBDriver) (f : MigrationFunc)
  (version replaced : string) (w : World) (d1 : Database) :
  faultAt w 0 = None ->
  f (committed w) = (None, d1) ->
  faultAt w 1 = None ->
  schema_version d1 = Some [replaced] ->
  faultAt w 2 = None ->
  faultAt w 3 = None ->
  fst (Version apd (snd (Transact apd f version replaced w)))
    = (version, None).
Proof.
  intros H0 Hf H1 Hrows H2 H3.
  destruct (Transact_single_row_world apd f version replaced w d1
              H0 Hf H1 Hrows H2) as (_ & Hc & Hk).
  apply Version_reads_first_row with (rest := []).
  - now rewrite Hk.
  - now rewrite Hc.
Qed.

(** A fresh database: no version before, the new version after. *)
Lemma Transact_then_Version_witness :
  let w := worldAt None noFaults in
  fst (Version sampleDriver w) = ("", None)
  /\ fst (Version sampleDriver
            (snd (Transact sampleDriver createVersionTable "001" "" w)))
     = ("001", None).
Proof.
  intro w. split; [reflexivity |].
  apply (Transact_then_Version sampleDriver createVersionTable "001" "" w
           {| schema_version := Some [""]; tables := [] |});
    reflexivity.
Defined.

(** X12: a migration is applied at most once.  After a run that moved a
    one-row version table from [replaced] to a different [version], a
    second run with the same [version] and [replaced], whose body
    succeeds and leaves the version table alone, touches no row: it
    returns the "affected 0 rows" error and commits nothing of its
    body. *)
Theorem Transact_replay_rejected (apd : CRDBDriver) (f g : MigrationFunc)
  (version replaced : string) (w : World) (d1 d2 : Database) :
  version <> replaced ->
  faultAt w 0 = None ->
  f (committed w) = (None, d1) ->
  faultAt w 1 = None ->
  schema_version d1 = Some [replaced] ->
  faultAt w 2 = None ->
  let w1 := snd (Transact apd f version replaced w) in
  faultAt w 3 = None ->
  g (committed w1) = (None, d2) ->
  schema_version d2 = Some [version] ->
  faultAt w 4 = None ->
  let r2 := Transact apd g version replaced w1 in
  fst r2 =
    Some (Errorf "writing version update affected %d rows, should be 1"
            [ArgInt 0])
  /\ committed (snd r2) = committed w1
  /\ committed (snd r2) =
       {| schema_version := Some [version]; tables := tables d1 |}.
Proof.
  intros Hne H0 Hf H1 Hrows H2 w1 H3 Hg Hrows2 H4 r2.
  destruct (Transact_single_row_world apd f version replaced w d1
              H0 Hf H1 Hrows H2) as (_ & Hc & Hk).
  fold w1 in Hc, Hk. subst r2.
  rewrite (Transact_not_one_row apd g version replaced w1 d2
             [version] [version] 0).
  - cbn [fst snd committed setTx received begun]. rewrite Hc. repeat split.
  - now rewrite Hk.
  - exact Hg.
  - now rewrite Hk.
  - exact Hrows2.
  - now apply updateRows_miss.
  - discriminate.
Qed.

Lemma Transact_replay_rejected_witness :
  let w := worldAt (Some ["002"]) noFaults in
  let w1 := snd (Transact sampleDriver addTableBody "003" "002" w) in
  let r2 := Transact sampleDriver addTableBody "003" "002" w1 in
  fst r2 =
    Some (Errorf "writing version update affected %d rows, should be 1"
            [ArgInt 0])
  /\ committed (snd r2) = committed w1
  /\ committed (snd r2) =
       {| schema_version := Some ["003"];
          tables := [("relation_tuple", [["row"]])] |}.
Proof.
  intros w w1.
  apply (Transact_replay_rejected sampleDriver addTableBody addTableBody
           "003" "002" w
           {| schema_version := Some ["002"];
              tables := [("relation_tuple", [["row"]])] |}
           {| schema_version := Some ["003"];
              tables := [("relation_tuple", [["row"]]);
                         ("relation_tuple", [["row"]])] |});
    try reflexivity.
  discriminate.
Defined.

(** X13: migrations chain.  When a run moves a one-row version table
    from [v0] to [v1] and a following run, whose body leaves the version
    table alone, replaces [v1] by [v2], both return nil and the committed
    database is the second body's working copy with the single version
    row [v2]. *)
Theorem Transact_chain (apd : CRDBDriver) (f g : MigrationFunc)
  (v0 v1 v2 : string) (w : World) (d1 d2 : Database) :
  faultAt w 0 = None ->
  f (committed w) = (None, d1) ->
  faultAt w 1 = None ->
  schema_version d1 = Some [v0] ->
  faultAt w 2 = None ->
  let w1 := snd (Transact apd f v1 v0 w) in
  faultAt w 3 = None ->
  g (committed w1) = (None, d2) ->
  faultAt w 4 = None ->
  schema_version d2 = Some [v1] ->
  faultAt w 5 = None ->
  let r2 := Transact apd g v2 v1 w1 in
  fst (Transact apd f v1 v0 w) = None
  /\ fst r2 = None
  /\ committed (snd r2) =
       {| schema_version := Some [v2]; tables := tables d2 |}.
Proof.
  intros H0 Hf H1 Hrows H2 w1 H3 Hg H4 Hrows2 H5 r2.
  destruct (Transact_single_row_world apd f v1 v0 w d1
              H0 Hf H1 Hrows H2) as (Hnil & _ & Hk).
  fold w1 in Hk. split; [exact Hnil |]. subst r2.
  destruct (Transact_single_row_world apd g v2 v1 w1 d2) as (Hnil2 & Hc2 & _);
    try assumption; try (now rewrite Hk).
  now split.
Qed.

Lemma Transact_chain_witness :
  let w := worldAt None noFaults in
  let w1 := snd (Transact sampleDriver createVersionTable "001" "" w) in
  let r2 := Transact sampleDriver addTableBody "002" "001" w1 in
  fst (Transact sampleDriver createVersionTable "001" "" w) = None
  /\ fst r2 = None
  /\ committed (snd r2) =
       {| schema_version := Some ["002"];
          tables := [("relation_tuple", [["row"]])] |}.
Proof.
  intros w w1.
  apply (Transact_chain sampleDriver createVersionTable addTableBody
           "" "001" "002" w
           {| schema_version := Some [""]; tables := [] |}
           {| schema_version := Some ["001"];
              tables := [("relation_tuple", [["row"]])] |});
    reflexivity.
Defined.

(** ** [Version] and [NewCRDBDriver] *)

(** X14: [Version] only reads.  On every path it sends exactly one call,
    the version query, and leaves the committed database, an open
    transaction and the connections as they were. *)
Theorem Version_read_only (apd : CRDBDriver) (w : World) :
  log (snd (Version apd w)) = (log w ++ [EvQuery queryLoadVersion])%list
  /\ committed (snd (Version apd w)) = committed w
  /\ tx (snd (Version apd w)) = tx w
  /\ live (snd (Version apd w)) = live w.
Proof.
  assert (E : snd (Version apd w) = received (EvQuery queryLoadVersion) w).
  { unfold Version, bind, QueryRowScan.
    destruct (nextFault w) as [e |].
    - destruct (errors_As_PgError e) as [[code msg] |]; [| reflexivity].
      now destruct (String.eqb code postgresMissingTableErrorCode).
    - destruct (runQueryRow queryLoadVersion (committed w)) as [v | e];
        [reflexivity |].
      destruct (errors_As_PgError e) as [[code msg] |]; [| reflexivity].
      now destruct (String.eqb code postgresMissingTableErrorCode). }
  rewrite E. repeat split.
Qed.

(** X15: what [Version] returns next to a non-nil error.  The version is
    then the empty string, the error is the read error wrapped as "unable
    to load alembic revision", and [errors.As] never finds a [PgError]
    with code 42P01 in it: a missing table is never reported as an
    error. *)
Theorem Version_error_shape (apd : CRDBDriver) (w : World)
  (loaded : string) (err : error) :
  fst (Version apd w) = (loaded, Some err) ->
  loaded = ""
  /\ (exists cause : error,
        snd (fst (QueryRowScan (db apd) queryLoadVersion w)) = Some cause
        /\ err = Wrapf "unable to load alembic revision: %w" cause)
  /\ forall msg : string, errors_As_PgError err <> Some ("42P01", msg).
Proof.
  unfold Version, bind.
  destruct (QueryRowScan (db apd) queryLoadVersion w) as [[l e] w'].
  cbn [fst snd]. destruct e as [e |]; [| discriminate].
  destruct (errors_As_PgError e) as [[code msg] |] eqn:Has.
  - destruct (String.eqb code postgresMissingTableErrorCode) eqn:Hcode;
      [discriminate |].
    cbn [ret fst]. intro H. injection H as <- <-.
    split; [reflexivity |]. split; [now exists e |].
    intros msg' H. cbn [errors_As_PgError] in H. rewrite Has in H.
    injection H as -> _. now rewrite String.eqb_refl in Hcode.
  - cbn [ret fst]. intro H. injection H as <- <-.
    split; [reflexivity |]. split; [now exists e |].
    intros msg' H. cbn [errors_As_PgError] in H. congruence.
Qed.

(** The server terminates the connection during the read. *)
Lemma Version_error_shape_witness :
  let w := worldAt (Some ["002"])
             (failAt 0 (PgError "57P01" "terminating connection")) in
  let err := Wrapf "unable to load alembic revision: %w"
               (PgError "57P01" "terminating connection") in
  fst (Version sampleDriver w) = ("", Some err)
  /\ forall msg : string, errors_As_PgError err <> Some ("42P01", msg).
Proof.
  intros w err.
  assert (H : fst (Version sampleDriver w) = ("", Some err)) by reflexivity.
  split; [exact H |].
  exact (proj2 (proj2 (Version_error_shape sampleDriver w "" err H))).
Defined.

(** X16: an existing version table without rows is not the bootstrap
    state: an undisturbed [Version] then returns the empty string with
    [pgx.ErrNoRows] wrapped as "unable to load alembic revision", where a
    missing table gives a nil error. *)
Theorem Version_empty_table (apd : CRDBDriver) (w : World) :
  faultAt w 0 = None ->
  schema_version (committed w) = Some [] ->
  fst (Version apd w) =
    ("", Some (Wrapf "unable to load alembic revision: %w" ErrNoRows)).
Proof.
  intros H0 Hrows. unfold Version, bind, QueryRowScan.
  rewrite nextFault_faultAt, H0.
  unfold runQueryRow, queryLoadVersion, loadVersionSQL.
  now rewrite String.eqb_refl, Hrows.
Qed.

Lemma Version_empty_table_witness :
  fst (Version sampleDriver (worldAt (Some []) noFaults)) =
    ("", Some (Wrapf "unable to load alembic revision: %w" ErrNoRows))
  /\ fst (Version sampleDriver (worldAt None noFaults)) = ("", None).
Proof.
  split; [| reflexivity].
  apply (Version_empty_table sampleDriver (worldAt (Some []) noFaults));
    reflexivity.
Defined.

(** X17: [NewCRDBDriver] returns either a driver and a nil error, having
    established one connection, or a nil driver and an error wrapped as
    "unable to instantiate CRDBDriver", holding no connection; never
    both, never neither.  It does not touch the database or a
    transaction, and sends at most one call. *)
Theorem NewCRDBDriver_result_shape
  (ParseConfig : string -> result ConnConfig) (url : string) (w : World) :
  let r := NewCRDBDriver ParseConfig url w in
  ((exists d : CRDBDriver,
       fst r = (Some d, None) /\ live (snd r) = S (live w))
   \/ (exists cause : error,
         fst r = (None, Some (Wrapf errUnableToInstantiate cause))
         /\ live (snd r) = live w))
  /\ committed (snd r) = committed w
  /\ tx (snd r) = tx w
  /\ (log (snd r) = log w
      \/ exists cfg, log (snd r) = (log w ++ [EvConnect cfg])%list).
Proof.
  intro r. subst r. unfold NewCRDBDriver.
  destruct (ParseConfig url) as [cfg | e].
  - unfold bind, ConnectConfig. destruct (nextFault w) as [e |]; cbn.
    + split; [right; now exists e |]. repeat split. right. now eexists.
    + split; [left; now eexists |]. repeat split. right. now eexists.
  - cbn. split; [right; now exists e |]. repeat split. now left.
Qed.

End migrations_more_facts.
